(** * KernMLOps: kernel control-flow instrumentation and correlation engine

    A shallow embedding of the eBPF probe handlers of
    [python/kernmlops/data_collection/bpf_instrumentation/bpf/] and of the
    properties the design document states about them.

    Each handler is a function from the probe context (the values the
    helpers [bpf_get_current_pid_tgid], [bpf_ktime_get_ns], [PT_REGS_RC],
    ... return at that firing) and the BPF maps to the new maps, the
    records pushed to the perf buffer, and the handler's return code. *)

From stdpp Require Import gmap list strings.
From Stdlib Require Import ZArith Lia.

Local Open Scope Z_scope.

(** ** Fixed-width integers

    C integer types are modelled as [Z] with the wrap-around written out. *)

Definition u8 (x : Z) : Z := x mod 2 ^ 8.
Definition u16 (x : Z) : Z := x mod 2 ^ 16.
Definition u32 (x : Z) : Z := x mod 2 ^ 32.
Definition u64 (x : Z) : Z := x mod 2 ^ 64.
(** Conversion to a signed 32-bit [int] / [s32]. *)
Definition s32 (x : Z) : Z := (x + 2 ^ 31) mod 2 ^ 32 - 2 ^ 31.

(** What a handler leaves behind: its return code, the maps after the call,
    and the records it submitted to its perf buffer, in submission order. *)
Record outcome (S E : Type) := Outcome {
  rc : Z;
  next : S;
  emitted : list E
}.
Arguments Outcome {S E} _ _ _.
Arguments rc {S E} _.
Arguments next {S E} _.
Arguments emitted {S E} _.

(** ** BPF hash maps

    [BPF_HASH(name, key, value, size)] declares a kernel hash table with
    [max_entries = size] (10240 when the size is left out).  The table
    operations used by the handlers are the kernel's:
    - [lookup] returns a pointer to the stored value or NULL;
    - [update] (flag BPF_ANY) replaces the value of a present key, and adds
      an absent key unless the table already holds [max_entries] elements,
      in which case it fails with E2BIG and the table is unchanged;
    - [insert] (flag BPF_NOEXIST) fails with EEXIST on a present key and
      otherwise behaves like [update];
    - [delete] removes the key if present.
    The handlers ignore the return codes of [update], [insert] and
    [delete], so only the resulting table is modelled. *)

Definition BPF_HASH_DEFAULT_SIZE : Z := 10240.

Section bpf_hash.
Context {V : Type}.
Implicit Types (m : gmap Z V) (k : Z) (v : V) (cap : Z).

Definition hash_lookup k m : option V := m !! k.

Definition hash_update cap k v m : gmap Z V :=
  match m !! k with
  | Some _ => <[k:=v]> m
  | None => if decide (Z.of_nat (size m) < cap) then <[k:=v]> m else m
  end.

Definition hash_insert cap k v m : gmap Z V :=
  match m !! k with
  | Some _ => m
  | None => if decide (Z.of_nat (size m) < cap) then <[k:=v]> m else m
  end.

Definition hash_delete k m : gmap Z V := delete k m.

(** [accepts cap k m]: a write of key [k] finds a slot. *)
Definition accepts cap k m : Prop := is_Some (m !! k) ∨ Z.of_nat (size m) < cap.
End bpf_hash.

(** The table that maps each of the keys [0 .. n-1] to [v]. *)
Definition fill {V : Type} (n : N) (v : V) : gmap Z V :=
  (N.iter n (λ '(k, m), (k + 1, <[k:=v]> m)) (0, ∅)).2.

(** ** Probe context

    The values the BPF helpers hand to a handler at one firing.  The raw
    fields are arbitrary integers; the helpers deliver them at the width of
    their C return type. *)
Record probe_ctx := ProbeCtx {
  pid_tgid : Z;   (* tgid in the upper, thread id in the lower 32 bits *)
  ktime_ns : Z;   (* monotonic clock, nanoseconds *)
  regs_rc : Z;    (* the return-value register *)
  task_comm : string
}.

Definition bpf_get_current_pid_tgid (c : probe_ctx) : Z := u64 (pid_tgid c).
Definition bpf_ktime_get_ns (c : probe_ctx) : Z := u64 (ktime_ns c).
Definition PT_REGS_RC (c : probe_ctx) : Z := u64 (regs_rc c).
Definition bpf_get_current_comm (c : probe_ctx) : string := task_comm c.

(** [bpf_probe_read] of a [w]-bit field: the value read, or zero when the
    read faults ([None]). *)
Definition bpf_probe_read (w : Z) (field : option Z) : Z :=
  match field with
  | Some x => x mod 2 ^ w
  | None => 0
  end.

(** ** tcp_v4_connect.bpf.c *)
Module Connect.

Definition CONNECT_ENTRY : Z := 0.
Definition CONNECT_INVALID_ADDRLEN : Z := 1.
Definition CONNECT_WRONG_FAMILY : Z := 2.
Definition CONNECT_ROUTE_ERROR : Z := 3.
Definition CONNECT_MULTICAST_BCAST : Z := 4.
Definition CONNECT_NO_SRC_ADDR : Z := 5.
Definition CONNECT_TS_RESET : Z := 6.
Definition CONNECT_REPAIR_MODE : Z := 7.
Definition CONNECT_HASH_ERROR : Z := 8.
Definition CONNECT_FASTOPEN_DEFER : Z := 9.
Definition CONNECT_TCP_CONNECT_ERR : Z := 10.
Definition CONNECT_ENETUNREACH : Z := 11.
Definition CONNECT_NEW_SPORT : Z := 12.
Definition CONNECT_WRITE_SEQ_INIT : Z := 13.
Definition CONNECT_SUCCESS : Z := 14.
Definition CONNECT_SRC_BIND_FAIL : Z := 15.
Definition CONNECT_PORT_EXHAUSTED : Z := 16.
Definition CONNECT_ROUTE_LOOKUP : Z := 17.
Definition CONNECT_PORT_ALLOC : Z := 18.
Definition CONNECT_REGULAR_SYN : Z := 19.
Definition CONNECT_ERROR_PATH : Z := 20.

Definition PATH_FAST : Z := 0.
Definition PATH_SLOW : Z := 1.
Definition PATH_ERROR : Z := 2.
Definition PATH_FASTOPEN : Z := 3.

Definition ERR_NONE : Z := 0.
Definition ERR_EINVAL : Z := -22.
Definition ERR_EAFNOSUPPORT : Z := -97.
Definition ERR_EADDRINUSE : Z := -98.
Definition ERR_EADDRNOTAVAIL : Z := -99.
Definition ERR_ENETUNREACH : Z := -101.
Definition ERR_ENOMEM : Z := -12.

Record connect_event := ConnectEvent {
  pid : Z;            (* u32 *)
  tgid : Z;           (* u32 *)
  ts_uptime_us : Z;   (* u64 *)
  latency_ns : Z;     (* u64 *)
  branch_type : Z;    (* u8 *)
  path_type : Z;      (* u8 *)
  error_code : Z;     (* s32 *)
  saddr : Z;          (* u32 *)
  daddr : Z;          (* u32 *)
  sport : Z;          (* u16 *)
  dport : Z;          (* u16 *)
  comm : string
}.

(** The two correlation maps, both keyed by the u32 thread id and both of
    the default size.  The statistics arrays [branch_stats], [path_stats]
    and [error_stats] are written on the side and never read by a handler,
    so neither the maps nor the submitted records depend on them; they are
    left out of the sequential state (module [Counter] models their
    increment). *)
Record state := State {
  connect_start_times : gmap Z Z;
  connect_tracking : gmap Z connect_event
}.

Definition init : state :=
  {| connect_start_times := ∅; connect_tracking := ∅ |}.

(** The fields the entry handler reads from [uaddr] and [sk]. *)
Record connect_args := ConnectArgs {
  sin_addr : option Z;
  sin_port : option Z;
  inet_saddr : option Z;
  inet_sport : option Z
}.

Definition trace_tcp_v4_connect (c : probe_ctx) (a : connect_args) (s : state)
  : outcome state connect_event :=
  let tid := u32 (bpf_get_current_pid_tgid c) in
  let ts := bpf_ktime_get_ns c in
  let start_times :=
    hash_update BPF_HASH_DEFAULT_SIZE tid ts (connect_start_times s) in
  let event :=
    {| pid := tid;
       tgid := u32 (Z.shiftr tid 32);
       ts_uptime_us := ts / 1000;
       latency_ns := 0;
       branch_type := u8 CONNECT_ENTRY;
       path_type := 0;
       error_code := s32 ERR_NONE;
       saddr := bpf_probe_read 32 (inet_saddr a);
       daddr := bpf_probe_read 32 (sin_addr a);
       sport := bpf_probe_read 16 (inet_sport a);
       dport := bpf_probe_read 16 (sin_port a);
       comm := bpf_get_current_comm c |} in
  let tracking :=
    hash_update BPF_HASH_DEFAULT_SIZE tid event (connect_tracking s) in
  Outcome 0
    {| connect_start_times := start_times; connect_tracking := tracking |}
    [event].

(** What an intermediate handler writes to [error_code]: nothing, one of the
    ERR_ constants, or the return-value register. *)
Inductive err_update := ErrKeep | ErrConst (e : Z) | ErrFromRC.

Definition new_error_code (u : err_update) (c : probe_ctx) (old : Z) : Z :=
  match u with
  | ErrKeep => old
  | ErrConst e => s32 e
  | ErrFromRC => s32 (PT_REGS_RC c)
  end.

Definition new_path_type (u : option Z) (old : Z) : Z :=
  match u with
  | Some p => u8 p
  | None => old
  end.

(** The latency a non-entry handler leaves in the record: recomputed when
    the start time is found, otherwise what the record already held. *)
Definition new_latency (start : option Z) (ts old : Z) : Z :=
  match start with
  | Some t0 => u64 (ts - t0)
  | None => old
  end.

(** The sixteen intermediate handlers share one body and differ in the
    branch constant and in which of [error_code] and [path_type] they
    assign.  [event] points into [connect_tracking]: the assignments change
    the stored record, which is then submitted. *)
Definition trace_branch (branch : Z) (err : err_update) (path : option Z)
    (c : probe_ctx) (s : state) : outcome state connect_event :=
  let tid := u32 (bpf_get_current_pid_tgid c) in
  match hash_lookup tid (connect_tracking s) with
  | Some event =>
      let ts := bpf_ktime_get_ns c in
      let event' :=
        {| pid := pid event;
           tgid := tgid event;
           ts_uptime_us := ts / 1000;
           latency_ns :=
             new_latency (hash_lookup tid (connect_start_times s)) ts
               (latency_ns event);
           branch_type := u8 branch;
           path_type := new_path_type path (path_type event);
           error_code := new_error_code err c (error_code event);
           saddr := saddr event;
           daddr := daddr event;
           sport := sport event;
           dport := dport event;
           comm := comm event |} in
      Outcome 0
        {| connect_start_times := connect_start_times s;
           connect_tracking := <[tid:=event']> (connect_tracking s) |}
        [event']
  | None => Outcome 0 s []
  end.

Definition trace_invalid_addrlen :=
  trace_branch CONNECT_INVALID_ADDRLEN (ErrConst ERR_EINVAL) (Some PATH_ERROR).
Definition trace_wrong_family :=
  trace_branch CONNECT_WRONG_FAMILY (ErrConst ERR_EAFNOSUPPORT) (Some PATH_ERROR).
Definition trace_route_lookup :=
  trace_branch CONNECT_ROUTE_LOOKUP ErrKeep None.
Definition trace_route_error :=
  trace_branch CONNECT_ROUTE_ERROR ErrFromRC (Some PATH_ERROR).
Definition trace_multicast_bcast :=
  trace_branch CONNECT_MULTICAST_BCAST (ErrConst ERR_ENETUNREACH) (Some PATH_ERROR).
Definition trace_no_src_addr :=
  trace_branch CONNECT_NO_SRC_ADDR ErrKeep None.
Definition trace_src_bind_fail :=
  trace_branch CONNECT_SRC_BIND_FAIL ErrFromRC (Some PATH_ERROR).
Definition trace_port_alloc :=
  trace_branch CONNECT_PORT_ALLOC ErrKeep None.
Definition trace_hash_error :=
  trace_branch CONNECT_HASH_ERROR ErrKeep (Some PATH_ERROR).
Definition trace_fastopen_defer :=
  trace_branch CONNECT_FASTOPEN_DEFER ErrKeep (Some PATH_FASTOPEN).
Definition trace_regular_syn :=
  trace_branch CONNECT_REGULAR_SYN ErrKeep (Some PATH_SLOW).
Definition trace_tcp_connect_err :=
  trace_branch CONNECT_TCP_CONNECT_ERR ErrFromRC (Some PATH_ERROR).
Definition trace_enetunreach :=
  trace_branch CONNECT_ENETUNREACH (ErrConst ERR_ENETUNREACH) (Some PATH_ERROR).
Definition trace_new_sport :=
  trace_branch CONNECT_NEW_SPORT ErrKeep None.
Definition trace_write_seq_init :=
  trace_branch CONNECT_WRITE_SEQ_INIT ErrKeep None.
Definition trace_error_path :=
  trace_branch CONNECT_ERROR_PATH ErrKeep (Some PATH_ERROR).

(** Return probe: final result and cleanup. *)
Definition trace_tcp_v4_connect_return (c : probe_ctx) (s : state)
  : outcome state connect_event :=
  let tid := u32 (bpf_get_current_pid_tgid c) in
  match hash_lookup tid (connect_tracking s) with
  | Some event =>
      let ts := bpf_ktime_get_ns c in
      let start := hash_lookup tid (connect_start_times s) in
      let start_times :=
        match start with
        | Some _ => hash_delete tid (connect_start_times s)
        | None => connect_start_times s
        end in
      let error_code' := s32 (PT_REGS_RC c) in
      let event' :=
        {| pid := pid event;
           tgid := tgid event;
           ts_uptime_us := ts / 1000;
           latency_ns := new_latency start ts (latency_ns event);
           branch_type :=
             if decide (error_code' = 0) then u8 CONNECT_SUCCESS
             else branch_type event;
           path_type :=
             if decide (error_code' = 0) then u8 PATH_FAST
             else if decide (path_type event = 0) then u8 PATH_ERROR
             else path_type event;
           error_code := error_code';
           saddr := saddr event;
           daddr := daddr event;
           sport := sport event;
           dport := dport event;
           comm := comm event |} in
      Outcome 0
        {| connect_start_times := start_times;
           connect_tracking := hash_delete tid (connect_tracking s) |}
        [event']
  | None => Outcome 0 s []
  end.

(** *** Sequences of observations *)

Inductive probe :=
  | P_invalid_addrlen | P_wrong_family | P_route_lookup | P_route_error
  | P_multicast_bcast | P_no_src_addr | P_src_bind_fail | P_port_alloc
  | P_hash_error | P_fastopen_defer | P_regular_syn | P_tcp_connect_err
  | P_enetunreach | P_new_sport | P_write_seq_init | P_error_path.

Definition intermediate (p : probe)
  : probe_ctx → state → outcome state connect_event :=
  match p with
  | P_invalid_addrlen => trace_invalid_addrlen
  | P_wrong_family => trace_wrong_family
  | P_route_lookup => trace_route_lookup
  | P_route_error => trace_route_error
  | P_multicast_bcast => trace_multicast_bcast
  | P_no_src_addr => trace_no_src_addr
  | P_src_bind_fail => trace_src_bind_fail
  | P_port_alloc => trace_port_alloc
  | P_hash_error => trace_hash_error
  | P_fastopen_defer => trace_fastopen_defer
  | P_regular_syn => trace_regular_syn
  | P_tcp_connect_err => trace_tcp_connect_err
  | P_enetunreach => trace_enetunreach
  | P_new_sport => trace_new_sport
  | P_write_seq_init => trace_write_seq_init
  | P_error_path => trace_error_path
  end.

Inductive observation :=
  | Entry (c : probe_ctx) (a : connect_args)
  | Branch (p : probe) (c : probe_ctx)
  | Exit (c : probe_ctx).

Definition handle (o : observation) (s : state) : outcome state connect_event :=
  match o with
  | Entry c a => trace_tcp_v4_connect c a s
  | Branch p c => intermediate p c s
  | Exit c => trace_tcp_v4_connect_return c s
  end.

(** Run the handlers over a sequence of firings, collecting every submitted
    record in order. *)
Fixpoint run (tr : list observation) (s : state) : state * list connect_event :=
  match tr with
  | [] => (s, [])
  | o :: tr' =>
      let r := handle o s in
      let '(s', evs) := run tr' (next r) in
      (s', emitted r ++ evs)
  end.

Definition ctx_of (o : observation) : probe_ctx :=
  match o with
  | Entry c _ => c
  | Branch _ c => c
  | Exit c => c
  end.

Definition key_of (o : observation) : Z :=
  u32 (bpf_get_current_pid_tgid (ctx_of o)).

Definition is_exit (o : observation) : bool :=
  match o with Exit _ => true | _ => false end.

Definition is_branch (o : observation) : bool :=
  match o with Branch _ _ => true | _ => false end.

(** The observation finds a record for its key in [connect_tracking]. *)
Definition finds_record (o : observation) (s : state) : bool :=
  bool_decide (is_Some (connect_tracking s !! key_of o)).

(** Number of exit observations of [tr] that found their entry record. *)
Fixpoint matched_exits (tr : list observation) (s : state) : nat :=
  match tr with
  | [] => 0%nat
  | o :: tr' =>
      ((if is_exit o && finds_record o s then 1 else 0)
       + matched_exits tr' (next (handle o s)))%nat
  end.

(** Number of intermediate observations of [tr] that found a record. *)
Fixpoint matched_branches (tr : list observation) (s : state) : nat :=
  match tr with
  | [] => 0%nat
  | o :: tr' =>
      ((if is_branch o && finds_record o s then 1 else 0)
       + matched_branches tr' (next (handle o s)))%nat
  end.

(** A record carries a latency when [latency_ns] is not the zero the entry
    handler writes. *)
Definition with_latency (evs : list connect_event) : nat :=
  length (filter (λ e, latency_ns e ≠ 0) evs).

(** The clock readings of a sequence are u64 values, each strictly later
    than the one before ([t0] is the reading before the first). *)
Fixpoint clocked (t0 : Z) (tr : list observation) : Prop :=
  match tr with
  | [] => True
  | o :: tr' =>
      t0 < ktime_ns (ctx_of o) < 2 ^ 64 ∧ clocked (ktime_ns (ctx_of o)) tr'
  end.

(** *** Invariants of the correlation maps *)

(** Both maps hold the same keys. *)
Definition same_keys (s : state) : Prop :=
  dom (connect_start_times s) = dom (connect_tracking s).

(** Every stored start time is a clock reading no later than [t0]. *)
Definition starts_before (t0 : Z) (s : state) : Prop :=
  ∀ k t, connect_start_times s !! k = Some t → 0 ≤ t ≤ t0.

(** What every record written by the entry handler satisfies and every later
    handler keeps: a zero [tgid] and a branch type among the declared
    constants 0 to 20. *)
Definition well_tagged (e : connect_event) : Prop :=
  tgid e = 0 ∧ 0 ≤ branch_type e ≤ 20.

Definition tracking_well_tagged (s : state) : Prop :=
  ∀ k e, connect_tracking s !! k = Some e → well_tagged e.

End Connect.

(** ** tcp_v4_rcv.bpf.c

    The later revision of the file, with branch types 0 to 18; the earlier
    revision declares branch types 0 to 8 only and its nine handlers are the
    first nine below, unchanged. *)
Module Rcv.

Definition TCP_BRANCH_ENTRY : Z := 0.
Definition TCP_BRANCH_NOT_FOR_HOST : Z := 1.
Definition TCP_BRANCH_NO_SOCKET : Z := 2.
Definition TCP_BRANCH_TIME_WAIT : Z := 3.
Definition TCP_BRANCH_CHECKSUM_ERR : Z := 4.
Definition TCP_BRANCH_LISTEN : Z := 5.
Definition TCP_BRANCH_SOCKET_BUSY : Z := 6.
Definition TCP_BRANCH_XFRM_DROP : Z := 7.
Definition TCP_BRANCH_NEW_SYN_RECV : Z := 8.
Definition TCP_BRANCH_PKT_TOO_SMALL : Z := 9.
Definition TCP_BRANCH_MIN_TTL_DROP : Z := 10.
Definition TCP_BRANCH_SOCKET_FILTER : Z := 11.
Definition TCP_BRANCH_DO_RCV_CALL : Z := 12.
Definition TCP_BRANCH_MD5_FAIL : Z := 13.
Definition TCP_BRANCH_BACKLOG_ADD : Z := 14.
Definition TCP_BRANCH_REQ_STOLEN : Z := 15.
Definition TCP_BRANCH_LISTEN_DROP : Z := 16.
Definition TCP_BRANCH_RST_SENT : Z := 17.
Definition TCP_BRANCH_ESTABLISHED : Z := 18.

Definition SKB_DROP_REASON_NOT_SPECIFIED : Z := 2.
Definition SKB_DROP_REASON_NO_SOCKET : Z := 3.
Definition SKB_DROP_REASON_PKT_TOO_SMALL : Z := 4.
Definition SKB_DROP_REASON_TCP_CSUM : Z := 5.
Definition SKB_DROP_REASON_SOCKET_FILTER : Z := 6.
Definition SKB_DROP_REASON_XFRM_POLICY : Z := 14.
Definition SKB_DROP_REASON_TCP_MINTTL : Z := 70.

Record tcp_branch_event := TcpBranchEvent {
  pid : Z;            (* u32 *)
  tgid : Z;           (* u32 *)
  ts_uptime_us : Z;   (* u64 *)
  branch_type : Z;    (* u8 *)
  drop_reason : Z;    (* u8 *)
  saddr : Z;          (* u32 *)
  daddr : Z;          (* u32 *)
  sport : Z;          (* u16 *)
  dport : Z;          (* u16 *)
  comm : string
}.

(** The header fields the entry handler reads from the packet. *)
Record rcv_args := RcvArgs {
  ip_saddr : option Z;
  ip_daddr : option Z;
  tcp_source : option Z;
  tcp_dest : option Z
}.

(** [tcp_branch_event_t event = {}] followed by the assignments every
    handler makes. *)
Definition new_event (c : probe_ctx) (branch reason : Z) : tcp_branch_event :=
  let pid_tgid := bpf_get_current_pid_tgid c in
  {| pid := u32 pid_tgid;
     tgid := u32 (Z.shiftr pid_tgid 32);
     ts_uptime_us := bpf_ktime_get_ns c / 1000;
     branch_type := u8 branch;
     drop_reason := u8 reason;
     saddr := 0; daddr := 0; sport := 0; dport := 0;
     comm := bpf_get_current_comm c |}.

Definition trace_tcp_v4_rcv (c : probe_ctx) (a : rcv_args)
  : outcome unit tcp_branch_event :=
  let event := new_event c TCP_BRANCH_ENTRY 0 in
  Outcome 0 tt
    [ {| pid := pid event;
         tgid := tgid event;
         ts_uptime_us := ts_uptime_us event;
         branch_type := branch_type event;
         drop_reason := drop_reason event;
         saddr := bpf_probe_read 32 (ip_saddr a);
         daddr := bpf_probe_read 32 (ip_daddr a);
         sport := bpf_probe_read 16 (tcp_source a);
         dport := bpf_probe_read 16 (tcp_dest a);
         comm := comm event |} ].

(** The handlers that assign [drop_reason]. *)
Definition trace_not_for_host (c : probe_ctx) : outcome unit tcp_branch_event :=
  Outcome 0 tt [new_event c TCP_BRANCH_NOT_FOR_HOST SKB_DROP_REASON_NOT_SPECIFIED].
Definition trace_no_socket (c : probe_ctx) : outcome unit tcp_branch_event :=
  Outcome 0 tt [new_event c TCP_BRANCH_NO_SOCKET SKB_DROP_REASON_NO_SOCKET].
Definition trace_time_wait (c : probe_ctx) : outcome unit tcp_branch_event :=
  Outcome 0 tt [new_event c TCP_BRANCH_TIME_WAIT 0].
Definition trace_checksum_error (c : probe_ctx) : outcome unit tcp_branch_event :=
  Outcome 0 tt [new_event c TCP_BRANCH_CHECKSUM_ERR SKB_DROP_REASON_TCP_CSUM].
Definition trace_xfrm_policy_drop (c : probe_ctx) : outcome unit tcp_branch_event :=
  Outcome 0 tt [new_event c TCP_BRANCH_XFRM_DROP SKB_DROP_REASON_XFRM_POLICY].
Definition trace_pkt_too_small (c : probe_ctx) : outcome unit tcp_branch_event :=
  Outcome 0 tt [new_event c TCP_BRANCH_PKT_TOO_SMALL SKB_DROP_REASON_PKT_TOO_SMALL].
Definition trace_min_ttl_drop (c : probe_ctx) : outcome unit tcp_branch_event :=
  Outcome 0 tt [new_event c TCP_BRANCH_MIN_TTL_DROP SKB_DROP_REASON_TCP_MINTTL].
Definition trace_socket_filter_drop (c : probe_ctx) : outcome unit tcp_branch_event :=
  Outcome 0 tt [new_event c TCP_BRANCH_SOCKET_FILTER SKB_DROP_REASON_SOCKET_FILTER].
Definition trace_md5_fail (c : probe_ctx) : outcome unit tcp_branch_event :=
  Outcome 0 tt [new_event c TCP_BRANCH_MD5_FAIL SKB_DROP_REASON_NOT_SPECIFIED].

(** The handlers that leave [drop_reason] at the zero of [event = {}]. *)
Definition trace_listen_state (c : probe_ctx) : outcome unit tcp_branch_event :=
  Outcome 0 tt [new_event c TCP_BRANCH_LISTEN 0].
Definition trace_socket_busy (c : probe_ctx) : outcome unit tcp_branch_event :=
  Outcome 0 tt [new_event c TCP_BRANCH_SOCKET_BUSY 0].
Definition trace_new_syn_recv (c : probe_ctx) : outcome unit tcp_branch_event :=
  Outcome 0 tt [new_event c TCP_BRANCH_NEW_SYN_RECV 0].
Definition trace_do_rcv_call (c : probe_ctx) : outcome unit tcp_branch_event :=
  Outcome 0 tt [new_event c TCP_BRANCH_DO_RCV_CALL 0].
Definition trace_backlog_add (c : probe_ctx) : outcome unit tcp_branch_event :=
  Outcome 0 tt [new_event c TCP_BRANCH_BACKLOG_ADD 0].
Definition trace_req_stolen (c : probe_ctx) : outcome unit tcp_branch_event :=
  Outcome 0 tt [new_event c TCP_BRANCH_REQ_STOLEN 0].
Definition trace_listen_drop (c : probe_ctx) : outcome unit tcp_branch_event :=
  Outcome 0 tt [new_event c TCP_BRANCH_LISTEN_DROP 0].
Definition trace_rst_sent (c : probe_ctx) : outcome unit tcp_branch_event :=
  Outcome 0 tt [new_event c TCP_BRANCH_RST_SENT 0].
Definition trace_established (c : probe_ctx) : outcome unit tcp_branch_event :=
  Outcome 0 tt [new_event c TCP_BRANCH_ESTABLISHED 0].

Inductive probe :=
  | P_tcp_v4_rcv (a : rcv_args)
  | P_not_for_host | P_no_socket | P_time_wait | P_checksum_error
  | P_listen_state | P_socket_busy | P_xfrm_policy_drop | P_new_syn_recv
  | P_pkt_too_small | P_min_ttl_drop | P_socket_filter_drop | P_do_rcv_call
  | P_md5_fail | P_backlog_add | P_req_stolen | P_listen_drop | P_rst_sent
  | P_established.

Definition handle (p : probe) (c : probe_ctx) : outcome unit tcp_branch_event :=
  match p with
  | P_tcp_v4_rcv a => trace_tcp_v4_rcv c a
  | P_not_for_host => trace_not_for_host c
  | P_no_socket => trace_no_socket c
  | P_time_wait => trace_time_wait c
  | P_checksum_error => trace_checksum_error c
  | P_listen_state => trace_listen_state c
  | P_socket_busy => trace_socket_busy c
  | P_xfrm_policy_drop => trace_xfrm_policy_drop c
  | P_new_syn_recv => trace_new_syn_recv c
  | P_pkt_too_small => trace_pkt_too_small c
  | P_min_ttl_drop => trace_min_ttl_drop c
  | P_socket_filter_drop => trace_socket_filter_drop c
  | P_do_rcv_call => trace_do_rcv_call c
  | P_md5_fail => trace_md5_fail c
  | P_backlog_add => trace_backlog_add c
  | P_req_stolen => trace_req_stolen c
  | P_listen_drop => trace_listen_drop c
  | P_rst_sent => trace_rst_sent c
  | P_established => trace_established c
  end.

(** The branch types whose macro name or handler comment in the source says
    the packet is dropped or rejected: "not for host", "no socket found",
    "checksum error", "XFRM policy drop", "packet too small", "min TTL
    drop", "socket filter drop", "MD5 hash failure", "listen
    overflow/drop". *)
Definition drop_branches : list Z :=
  [ TCP_BRANCH_NOT_FOR_HOST; TCP_BRANCH_NO_SOCKET; TCP_BRANCH_CHECKSUM_ERR;
    TCP_BRANCH_XFRM_DROP; TCP_BRANCH_PKT_TOO_SMALL; TCP_BRANCH_MIN_TTL_DROP;
    TCP_BRANCH_SOCKET_FILTER; TCP_BRANCH_MD5_FAIL; TCP_BRANCH_LISTEN_DROP ].

Definition is_drop_branch (b : Z) : bool := bool_decide (b ∈ drop_branches).

End Rcv.

(** ** page_fault.bpf.c (entry/return revision) *)
Module PageFault.

Definition VM_FAULT_MAJOR : Z := 0x0200.
Definition VM_FAULT_ERROR : Z := 0x0001.

Record page_fault_info := PageFaultInfo {
  info_pid : Z;        (* u32 pid *)
  info_address : Z;    (* u64 address *)
  info_flags : Z;      (* u32 flags *)
  ts_start : Z         (* u64 *)
}.

Record page_fault_event := PageFaultEvent {
  pid : Z;            (* u32 *)
  tgid : Z;           (* u32 *)
  ts_uptime_us : Z;   (* u64 *)
  address : Z;        (* u64 *)
  error_code : Z;     (* u32 *)
  is_major : Z;       (* u8 *)
  is_write : Z;       (* u8 *)
  is_exec : Z;        (* u8 *)
  comm : string
}.

Definition FAULT_ENTRY_SIZE : Z := 10240.

(** [BPF_HASH(fault_entry, u32, page_fault_info_t, 10240)]. *)
Record state := State { fault_entry : gmap Z page_fault_info }.

Definition init : state := {| fault_entry := ∅ |}.

Section handlers.
(** The kernel's fault-flag bits, from <linux/mm.h>; the file only names
    them. *)
Variables FAULT_FLAG_WRITE FAULT_FLAG_INSTRUCTION : Z.

(** C truth value of a bit test, as [cond ? 1 : 0]. *)
Definition flag_set (x mask : Z) : Z :=
  if decide (Z.land x mask = 0) then 0 else 1.

Definition trace_handle_mm_fault_entry (c : probe_ctx) (address flags : Z)
    (s : state) : outcome state page_fault_event :=
  let pid := u32 (bpf_get_current_pid_tgid c) in
  let info :=
    {| info_pid := pid;
       info_address := u64 address;
       info_flags := u32 flags;
       ts_start := bpf_ktime_get_ns c |} in
  Outcome 0
    {| fault_entry := hash_update FAULT_ENTRY_SIZE pid info (fault_entry s) |}
    [].

Definition trace_handle_mm_fault_return (c : probe_ctx) (s : state)
  : outcome state page_fault_event :=
  let pid := u32 (bpf_get_current_pid_tgid c) in
  match hash_lookup pid (fault_entry s) with
  | None => Outcome 0 s []
  | Some info =>
      let ret := PT_REGS_RC c in
      if decide (Z.land ret VM_FAULT_ERROR ≠ 0) then
        Outcome 0 {| fault_entry := hash_delete pid (fault_entry s) |} []
      else
        let event :=
          {| pid := info_pid info;
             tgid := u32 (Z.shiftr (bpf_get_current_pid_tgid c) 32);
             ts_uptime_us := ts_start info / 1000;
             address := info_address info;
             error_code := 0;
             is_major := flag_set ret VM_FAULT_MAJOR;
             is_write := flag_set (info_flags info) FAULT_FLAG_WRITE;
             is_exec := flag_set (info_flags info) FAULT_FLAG_INSTRUCTION;
             comm := bpf_get_current_comm c |} in
        Outcome 0 {| fault_entry := hash_delete pid (fault_entry s) |} [event]
  end.

Inductive observation :=
  | Entry (c : probe_ctx) (address flags : Z)
  | Return (c : probe_ctx).

Definition handle (o : observation) (s : state) : outcome state page_fault_event :=
  match o with
  | Entry c address flags => trace_handle_mm_fault_entry c address flags s
  | Return c => trace_handle_mm_fault_return c s
  end.

Definition run (tr : list observation) (s : state) : state :=
  fold_left (λ s o, next (handle o s)) tr s.
End handlers.

(** A state whose [fault_entry] is full: keys 0 to 10239. *)
Definition full_state : state :=
  {| fault_entry := fill 10240 (PageFaultInfo 0 0 0 0) |}.

End PageFault.

(** ** zswap_runtime.bpf.c

    The store, load and invalidate probes are three copies of one pair of
    handlers over three tables; the store pair is modelled. *)
Module Zswap.

Record zswap_event := ZswapEvent {
  pid : Z;        (* u32 *)
  tgid : Z;       (* u32 *)
  start_ts : Z;   (* u64 *)
  end_ts : Z      (* u64 *)
}.

(** [BPF_HASH(stores, u64, u64)]. *)
Record state := State { stores : gmap Z Z }.

Definition init : state := {| stores := ∅ |}.

(** The kernel's [IS_ERR]: the pointer value lies in the last [MAX_ERRNO]
    (4095) addresses. *)
Definition MAX_ERRNO : Z := 4095.
Definition IS_ERR (ptr : Z) : bool := bool_decide (2 ^ 64 - MAX_ERRNO ≤ ptr).

Definition trace_zswap_store_entry (c : probe_ctx) (s : state)
  : outcome state zswap_event :=
  let id := bpf_get_current_pid_tgid c in
  let start_ts := bpf_ktime_get_ns c in
  Outcome 0
    {| stores := hash_update BPF_HASH_DEFAULT_SIZE id start_ts (stores s) |}
    [].

Definition trace_zswap_store_return (c : probe_ctx) (s : state)
  : outcome state zswap_event :=
  let id := bpf_get_current_pid_tgid c in
  match hash_lookup id (stores s) with
  | None => Outcome 0 s []
  | Some start_ts =>
      if IS_ERR (PT_REGS_RC c) then Outcome 0 s []
      else
        let event :=
          {| pid := u32 id;
             tgid := u32 (Z.shiftr id 32);
             start_ts := start_ts;
             end_ts := bpf_ktime_get_ns c |} in
        Outcome 0 {| stores := hash_delete id (stores s) |} [event]
  end.

End Zswap.

(** ** madvise.bpf.c (the revision with the madvise probes only) *)
Module Madvise.

Record madvise_output := MadviseOutput {
  tgid : Z;      (* u32 *)
  ts_ns : Z;     (* u64 *)
  address : Z;   (* u64 *)
  length : Z;    (* u64 *)
  advice : Z     (* int *)
}.

Definition MADVISE_HASH_SIZE : Z := 32768.

(** [BPF_HASH(madvise_hash, u32, madvise_output_t, 32768)]. *)
Record state := State { madvise_hash : gmap Z madvise_output }.

Definition init : state := {| madvise_hash := ∅ |}.

(** [owner_tgid] is [mm->owner->tgid]. *)
Definition kprobe__do_madvise (c : probe_ctx) (owner_tgid addr len adv : Z)
    (s : state) : outcome state madvise_output :=
  let pid := u32 (bpf_get_current_pid_tgid c) in
  let data :=
    {| tgid := u32 owner_tgid;
       ts_ns := bpf_ktime_get_ns c;
       address := u64 addr;
       length := u64 len;
       advice := s32 adv |} in
  Outcome 0
    {| madvise_hash := hash_insert MADVISE_HASH_SIZE pid data (madvise_hash s) |}
    [].

(** The last path of the function runs off its end without a [return]; the
    value left in the return register is that of the [delete] call, zero
    for the key just looked up. *)
Definition kretprobe__do_madvise (c : probe_ctx) (s : state)
  : outcome state madvise_output :=
  if decide (s32 (PT_REGS_RC c) ≠ 0) then Outcome 0 s []
  else
    let pid := u32 (bpf_get_current_pid_tgid c) in
    match hash_lookup pid (madvise_hash s) with
    | None => Outcome 0 s []
    | Some data =>
        Outcome 0 {| madvise_hash := hash_delete pid (madvise_hash s) |} [data]
    end.

End Madvise.

(** ** madvise.bpf.c (the revision with the madvise and munmap probes) *)
Module MadviseMunmap.

Record madvise_output := MadviseOutput {
  tgid : Z;      (* u32 *)
  ts_ns : Z;     (* u64 *)
  address : Z;   (* u64 *)
  length : Z;    (* u64 *)
  advice : Z     (* int *)
}.

Definition MADVISE_HASH_SIZE : Z := 32768.
Definition MUNMAP_HASH_SIZE : Z := 32768.

Record state := State {
  madvise_hash : gmap Z madvise_output;
  munmap_hash : gmap Z madvise_output
}.

Definition init : state := {| madvise_hash := ∅; munmap_hash := ∅ |}.

Definition kprobe__do_madvise (c : probe_ctx) (owner_tgid addr len adv : Z)
    (s : state) : outcome state madvise_output :=
  let pid := u32 (bpf_get_current_pid_tgid c) in
  let data :=
    {| tgid := u32 owner_tgid;
       ts_ns := bpf_ktime_get_ns c;
       address := u64 addr;
       length := u64 len;
       advice := s32 adv |} in
  Outcome 0
    {| madvise_hash := hash_insert MADVISE_HASH_SIZE pid data (madvise_hash s);
       munmap_hash := munmap_hash s |}
    [].

(** The [if] has no braces: it guards the [delete] alone, and the
    [return 0] after it is unconditional.  The lookup, [perf_submit] and
    second [delete] below that line are never reached. *)
Definition kretprobe__do_madvise (c : probe_ctx) (s : state)
  : outcome state madvise_output :=
  let pid := u32 (bpf_get_current_pid_tgid c) in
  if decide (s32 (PT_REGS_RC c) ≠ 0) then
    Outcome 0
      {| madvise_hash := hash_delete pid (madvise_hash s);
         munmap_hash := munmap_hash s |}
      []
  else Outcome 0 s [].

Definition kprobe__do_vmi_align_munmap (c : probe_ctx)
    (owner_tgid start_ end_ : Z) (s : state) : outcome state madvise_output :=
  let pid := u32 (bpf_get_current_pid_tgid c) in
  let data :=
    {| tgid := u32 owner_tgid;
       ts_ns := bpf_ktime_get_ns c;
       address := u64 start_;
       length := u64 (end_ - start_);
       advice := -1 |} in
  Outcome 0
    {| madvise_hash := madvise_hash s;
       munmap_hash := hash_insert MUNMAP_HASH_SIZE pid data (munmap_hash s) |}
    [].

(** As above, the [return 0] after the unbraced [if] is unconditional. *)
Definition kretprobe__do_vmi_align_munmap (c : probe_ctx) (s : state)
  : outcome state madvise_output :=
  let pid := u32 (bpf_get_current_pid_tgid c) in
  match hash_lookup pid (munmap_hash s) with
  | None => Outcome 0 s []
  | Some _ =>
      if decide (s32 (PT_REGS_RC c) ≠ 0) then
        Outcome 0
          {| madvise_hash := madvise_hash s;
             munmap_hash := hash_delete pid (munmap_hash s) |}
          []
      else Outcome 0 s []
  end.

Inductive observation :=
  | MadviseEntry (c : probe_ctx) (owner_tgid addr len adv : Z)
  | MadviseReturn (c : probe_ctx)
  | MunmapEntry (c : probe_ctx) (owner_tgid start_ end_ : Z)
  | MunmapReturn (c : probe_ctx).

Definition handle (o : observation) (s : state) : outcome state madvise_output :=
  match o with
  | MadviseEntry c owner_tgid addr len adv =>
      kprobe__do_madvise c owner_tgid addr len adv s
  | MadviseReturn c => kretprobe__do_madvise c s
  | MunmapEntry c owner_tgid start_ end_ =>
      kprobe__do_vmi_align_munmap c owner_tgid start_ end_ s
  | MunmapReturn c => kretprobe__do_vmi_align_munmap c s
  end.

Definition run (tr : list observation) (s : state) : state :=
  fold_left (λ s o, next (handle o s)) tr s.

(** A state whose [madvise_hash] is full: keys 0 to 32767. *)
Definition full_state : state :=
  {| madvise_hash := fill 32768 (MadviseOutput 1 0 0 0 0); munmap_hash := ∅ |}.

(** Both tables are within their declared sizes. *)
Definition within_capacity (s : state) : Prop :=
  Z.of_nat (size (madvise_hash s)) ≤ MADVISE_HASH_SIZE
  ∧ Z.of_nat (size (munmap_hash s)) ≤ MUNMAP_HASH_SIZE.

End MadviseMunmap.

(** ** rss_stat.bpf.c *)
Module RssStat.

Record rss_stat_output := RssStatOutput {
  pid : Z;             (* u32 *)
  tgid : Z;            (* u32 *)
  ts : Z;              (* u64 *)
  member : Z;          (* int *)
  counter_value : Z    (* u64 *)
}.

Definition RSS_STAT_HASH_SIZE : Z := 32768.
Definition PAGE_SZ : Z := 12.

(** [BPF_HASH(rss_stat_hash, u32, rss_stat_output_t, 32768)]. *)
Record state := State { rss_stat_hash : gmap Z rss_stat_output }.

Definition init : state := {| rss_stat_hash := ∅ |}.

(** [RAW_TRACEPOINT_PROBE(rss_stat)]; [owner_pid] and [owner_tgid] are
    [mm->owner->pid] and [mm->owner->tgid]. *)
Definition raw_tracepoint__rss_stat (c : probe_ctx) (owner_pid owner_tgid : Z)
    (s : state) : outcome state rss_stat_output :=
  let pid := u32 (bpf_get_current_pid_tgid c) in
  let stack_data :=
    {| pid := u32 owner_pid;
       tgid := u32 owner_tgid;
       ts := 0;
       member := 0;
       counter_value := 0 |} in
  Outcome 0
    {| rss_stat_hash :=
         hash_insert RSS_STAT_HASH_SIZE pid stack_data (rss_stat_hash s) |}
    [].

(** [TRACEPOINT_PROBE(kmem, rss_stat)]; [arg_member] and [arg_size] are
    [args->member] and [args->size]. *)
Definition tracepoint__kmem__rss_stat (c : probe_ctx) (arg_member arg_size : Z)
    (s : state) : outcome state rss_stat_output :=
  let pid := u32 (bpf_get_current_pid_tgid c) in
  match hash_lookup pid (rss_stat_hash s) with
  | None => Outcome 0 s []
  | Some data =>
      let data' :=
        {| pid := RssStat.pid data;
           tgid := tgid data;
           ts := bpf_ktime_get_ns c;
           member := s32 arg_member;
           counter_value := u64 (Z.shiftr arg_size PAGE_SZ) |} in
      Outcome 0 {| rss_stat_hash := hash_delete pid (rss_stat_hash s) |} [data']
  end.

End RssStat.

(** ** Counter increments under concurrency

    Handlers run on whatever CPU hits the probe, so two firings can
    interleave at the level of single memory accesses.  A context that
    increments a counter is a small machine over the shared cell:
    - [plain_step] is the non-atomic post-increment of the cell that [count]
      points to, as the entry handler of tcp_v4_connect.bpf.c writes it on
      [branch_stats]: its event is zero-initialised, so the key read at
      [&event.branch_type] is 0 and the lookup that guards the increment
      succeeds; one step loads the cell, the next stores the loaded value
      plus one;
    - [atomic_step] is [__sync_fetch_and_add(count, 1)] as
      tcp_rcv_state_process.bpf.c writes it: one indivisible step. *)
Module Counter.

Inductive local := Ready | Loaded (r : Z) | Finished.

Definition plain_step (cell : Z) (l : local) : Z * local :=
  match l with
  | Ready => (cell, Loaded cell)
  | Loaded r => (u64 (r + 1), Finished)
  | Finished => (cell, Finished)
  end.


Record machine := Machine {
  shared : Z;
  locals : list local
}.

(** Context [i] takes its next step. *)
Definition step (f : Z → local → Z * local) (i : nat) (m : machine) : machine :=
  match locals m !! i with
  | Some l =>
      let '(cell', l') := f (shared m) l in
      {| shared := cell'; locals := <[i:=l']> (locals m) |}
  | None => m
  end.

(** A schedule names the context that moves at each instant. *)
Definition run_schedule (f : Z → local → Z * local) (sched : list nat)
    (m : machine) : machine :=
  fold_left (λ m i, step f i m) sched m.

Definition start (cell : Z) (n : nat) : machine :=
  {| shared := cell; locals := replicate n Ready |}.

Definition is_finished (l : local) : bool :=
  match l with Finished => true | _ => false end.

Definition all_finished (m : machine) : Prop :=
  Forall (λ l, is_finished l = true) (locals m).

Definition finished_count (ls : list local) : nat :=
  length (filter (λ l, is_finished l = true) ls).


End Counter.

(** ** tcp_v4_connect.bpf.c: further vocabulary for sequences *)
Module ConnectExt.
Import Connect.

(** The branch constant each intermediate handler writes. *)
Definition branch_of (p : probe) : Z :=
  match p with
  | P_invalid_addrlen => CONNECT_INVALID_ADDRLEN
  | P_wrong_family => CONNECT_WRONG_FAMILY
  | P_route_lookup => CONNECT_ROUTE_LOOKUP
  | P_route_error => CONNECT_ROUTE_ERROR
  | P_multicast_bcast => CONNECT_MULTICAST_BCAST
  | P_no_src_addr => CONNECT_NO_SRC_ADDR
  | P_src_bind_fail => CONNECT_SRC_BIND_FAIL
  | P_port_alloc => CONNECT_PORT_ALLOC
  | P_hash_error => CONNECT_HASH_ERROR
  | P_fastopen_defer => CONNECT_FASTOPEN_DEFER
  | P_regular_syn => CONNECT_REGULAR_SYN
  | P_tcp_connect_err => CONNECT_TCP_CONNECT_ERR
  | P_enetunreach => CONNECT_ENETUNREACH
  | P_new_sport => CONNECT_NEW_SPORT
  | P_write_seq_init => CONNECT_WRITE_SEQ_INIT
  | P_error_path => CONNECT_ERROR_PATH
  end.

Definition is_entry (o : observation) : bool :=
  match o with Entry _ _ => true | _ => false end.

(** Number of entry observations of a sequence. *)
Definition entries (tr : list observation) : nat :=
  length (filter (λ o, is_entry o = true) tr).

(** Every tracked record is filed under the thread id it carries. *)
Definition keyed (s : state) : Prop :=
  ∀ k e, connect_tracking s !! k = Some e → pid e = k.

Definition within_capacity (s : state) : Prop :=
  Z.of_nat (size (connect_start_times s)) ≤ BPF_HASH_DEFAULT_SIZE
  ∧ Z.of_nat (size (connect_tracking s)) ≤ BPF_HASH_DEFAULT_SIZE.





End ConnectExt.

(** ** madvise.bpf.c (madvise and munmap probes): records of a sequence *)
Module MadviseMunmapExt.
Import MadviseMunmap.

(** Every record submitted while the handlers run over [tr]. *)
Fixpoint records (tr : list observation) (s : state) : list madvise_output :=
  match tr with
  | [] => []
  | o :: tr' => emitted (handle o s) ++ records tr' (next (handle o s))
  end.

End MadviseMunmapExt.

(** ** page_fault.bpf.c (kprobe/tracepoint revision, no correlation map) *)
Module PageFaultProbe.

Record page_fault_event := PageFaultEvent {
  pid : Z;            (* u32 *)
  tgid : Z;           (* u32 *)
  ts_uptime_us : Z;   (* u64 *)
  address : Z;        (* u64 *)
  error_code : Z;     (* u32 *)
  is_major : Z;       (* u8 *)
  is_write : Z;       (* u8 *)
  is_exec : Z;        (* u8 *)
  comm : string
}.

(** [FAULT_FLAG_WRITE] and [FAULT_FLAG_INSTRUCTION] are the kernel's bits
    from <linux/mm.h>. *)
Definition kprobe__handle_mm_fault (FAULT_FLAG_WRITE FAULT_FLAG_INSTRUCTION : Z)
    (c : probe_ctx) (address flags : Z) : outcome unit page_fault_event :=
  let pid_tgid := bpf_get_current_pid_tgid c in
  Outcome 0 tt
    [ {| pid := u32 pid_tgid;
         tgid := u32 (Z.shiftr pid_tgid 32);
         ts_uptime_us := bpf_ktime_get_ns c / 1000;
         address := u64 address;
         error_code := 0;
         is_major := 0;
         is_write := PageFault.flag_set (u32 flags) FAULT_FLAG_WRITE;
         is_exec := PageFault.flag_set (u32 flags) FAULT_FLAG_INSTRUCTION;
         comm := bpf_get_current_comm c |} ].

(** [TRACEPOINT_PROBE(exceptions, page_fault_kernel)]; [arg_address] and
    [arg_error_code] are the tracepoint's unsigned long arguments. *)
Definition tracepoint__exceptions__page_fault_kernel (c : probe_ctx)
    (arg_address arg_error_code : Z) : outcome unit page_fault_event :=
  let code := u64 arg_error_code in
  Outcome 0 tt
    [ {| pid := u32 (bpf_get_current_pid_tgid c);
         tgid := u32 (Z.shiftr (bpf_get_current_pid_tgid c) 32);
         ts_uptime_us := bpf_ktime_get_ns c / 1000;
         address := u64 arg_address;
         error_code := u32 code;
         is_major := if decide (Z.land code 0x1 = 0) then 1 else 0;
         is_write := PageFault.flag_set code 0x2;
         is_exec := PageFault.flag_set code 0x10;
         comm := bpf_get_current_comm c |} ].

End PageFaultProbe.

(** ** tcp_rcv_state_process.bpf.c *)
Module StateProcess.

Definition STATE_TRANSITION : Z := 0.
Definition STATE_ERROR : Z := 1.
Definition STATE_PROCESSING : Z := 2.

Definition SUBTYPE_NONE : Z := 0.
Definition SUBTYPE_CHALLENGE_ACK : Z := 1.
Definition SUBTYPE_RESET : Z := 2.
Definition SUBTYPE_FAST_OPEN : Z := 3.
Definition SUBTYPE_ACK_PROCESS : Z := 4.
Definition SUBTYPE_DATA_QUEUE : Z := 5.
Definition SUBTYPE_ABORT_DATA : Z := 6.

(** The socket states of <net/tcp_states.h>, which the file only names. *)
Record tcp_states := TcpStates {
  TCP_ESTABLISHED : Z;
  TCP_SYN_SENT : Z;
  TCP_SYN_RECV : Z;
  TCP_FIN_WAIT1 : Z;
  TCP_FIN_WAIT2 : Z;
  TCP_TIME_WAIT : Z;
  TCP_LAST_ACK : Z;
  TCP_LISTEN : Z
}.

Record tcp_state_event := TcpStateEvent {
  pid : Z;            (* u32 *)
  tgid : Z;           (* u32 *)
  ts_uptime_us : Z;   (* u64 *)
  old_state : Z;      (* u8 *)
  new_state : Z;      (* u8 *)
  event_type : Z;     (* u8 *)
  event_subtype : Z;  (* u8 *)
  comm : string
}.

Record tcp_state_stats := TcpStateStats {
  total_calls : Z;
  listen_state : Z;
  syn_sent_state : Z;
  syn_recv_to_established : Z;
  fin_wait1_to_fin_wait2 : Z;
  to_time_wait : Z;
  to_last_ack : Z;
  challenge_acks : Z;
  resets : Z;
  fast_open_checks : Z;
  ack_processing : Z;
  data_queued : Z;
  abort_on_data : Z
}.

Definition zero_stats : tcp_state_stats :=
  TcpStateStats 0 0 0 0 0 0 0 0 0 0 0 0 0.

(** The members of [struct tcp_state_stats]. *)
Inductive stat_field :=
  | F_total_calls | F_listen_state | F_syn_sent_state
  | F_syn_recv_to_established | F_fin_wait1_to_fin_wait2 | F_to_time_wait
  | F_to_last_ack | F_challenge_acks | F_resets | F_fast_open_checks
  | F_ack_processing | F_data_queued | F_abort_on_data.

Definition stat_field_eqb (f g : stat_field) : bool :=
  match f, g with
  | F_total_calls, F_total_calls
  | F_listen_state, F_listen_state
  | F_syn_sent_state, F_syn_sent_state
  | F_syn_recv_to_established, F_syn_recv_to_established
  | F_fin_wait1_to_fin_wait2, F_fin_wait1_to_fin_wait2
  | F_to_time_wait, F_to_time_wait
  | F_to_last_ack, F_to_last_ack
  | F_challenge_acks, F_challenge_acks
  | F_resets, F_resets
  | F_fast_open_checks, F_fast_open_checks
  | F_ack_processing, F_ack_processing
  | F_data_queued, F_data_queued
  | F_abort_on_data, F_abort_on_data => true
  | _, _ => false
  end.

Definition get (f : stat_field) (st : tcp_state_stats) : Z :=
  match f with
  | F_total_calls => total_calls st
  | F_listen_state => listen_state st
  | F_syn_sent_state => syn_sent_state st
  | F_syn_recv_to_established => syn_recv_to_established st
  | F_fin_wait1_to_fin_wait2 => fin_wait1_to_fin_wait2 st
  | F_to_time_wait => to_time_wait st
  | F_to_last_ack => to_last_ack st
  | F_challenge_acks => challenge_acks st
  | F_resets => resets st
  | F_fast_open_checks => fast_open_checks st
  | F_ack_processing => ack_processing st
  | F_data_queued => data_queued st
  | F_abort_on_data => abort_on_data st
  end.

(** [__sync_fetch_and_add(&stats->f, 1)], run on its own. *)
Definition fetch_and_add_1 (f : stat_field) (st : tcp_state_stats)
  : tcp_state_stats :=
  let inc g x := if stat_field_eqb f g then u64 (x + 1) else x in
  {| total_calls := inc F_total_calls (total_calls st);
     listen_state := inc F_listen_state (listen_state st);
     syn_sent_state := inc F_syn_sent_state (syn_sent_state st);
     syn_recv_to_established :=
       inc F_syn_recv_to_established (syn_recv_to_established st);
     fin_wait1_to_fin_wait2 :=
       inc F_fin_wait1_to_fin_wait2 (fin_wait1_to_fin_wait2 st);
     to_time_wait := inc F_to_time_wait (to_time_wait st);
     to_last_ack := inc F_to_last_ack (to_last_ack st);
     challenge_acks := inc F_challenge_acks (challenge_acks st);
     resets := inc F_resets (resets st);
     fast_open_checks := inc F_fast_open_checks (fast_open_checks st);
     ack_processing := inc F_ack_processing (ack_processing st);
     data_queued := inc F_data_queued (data_queued st);
     abort_on_data := inc F_abort_on_data (abort_on_data st) |}.

(** [BPF_HASH(stats_map, u32, struct tcp_state_stats)] and
    [BPF_HASH(state_distribution, u8, u64)]. *)
Record state := State {
  stats_map : gmap Z tcp_state_stats;
  state_distribution : gmap Z Z
}.

Definition init : state := {| stats_map := ∅; state_distribution := ∅ |}.

(** BCC's [lookup_or_try_init]: look the key up; when it is absent, insert
    the initial value with BPF_NOEXIST and look it up again. *)
Definition lookup_or_try_init {V : Type} (cap k : Z) (v : V) (m : gmap Z V)
  : gmap Z V * option V :=
  match m !! k with
  | Some x => (m, Some x)
  | None => (hash_insert cap k v m, hash_insert cap k v m !! k)
  end.

(** [get_sk_state]: the byte at [sk->sk_state], zero when unreadable. *)
Definition get_sk_state (sk_state : option Z) : Z := bpf_probe_read 8 sk_state.

(** Add one to the counter stored behind a looked-up pointer. *)
Definition count_in_place (f : stat_field) (stats : option tcp_state_stats)
    (m : gmap Z tcp_state_stats) : gmap Z tcp_state_stats :=
  match stats with
  | Some st => <[0:=fetch_and_add_1 f st]> m
  | None => m
  end.

Definition trace_tcp_rcv_state_process (c : probe_ctx) (sk_state : option Z)
    (s : state) : outcome state tcp_state_event :=
  let '(stats_map1, stats) :=
    lookup_or_try_init BPF_HASH_DEFAULT_SIZE 0 zero_stats (stats_map s) in
  let stats_map2 := count_in_place F_total_calls stats stats_map1 in
  let st := get_sk_state sk_state in
  let distribution :=
    match hash_lookup st (state_distribution s) with
    | Some count => <[st:=u64 (count + 1)]> (state_distribution s)
    | None => hash_update BPF_HASH_DEFAULT_SIZE st 1 (state_distribution s)
    end in
  Outcome 0
    {| stats_map := stats_map2; state_distribution := distribution |}
    [].

(** The twelve branch probes share one body: count in [stats_map[0]] when
    that entry exists, then submit an event. *)
Definition count_and_emit (f : stat_field) (old new ty subtype : Z)
    (c : probe_ctx) (s : state) : outcome state tcp_state_event :=
  let stats := hash_lookup 0 (stats_map s) in
  let pid_tgid := bpf_get_current_pid_tgid c in
  Outcome 0
    {| stats_map := count_in_place f stats (stats_map s);
       state_distribution := state_distribution s |}
    [ {| pid := u32 pid_tgid;
         tgid := u32 (Z.shiftr pid_tgid 32);
         ts_uptime_us := bpf_ktime_get_ns c / 1000;
         old_state := u8 old;
         new_state := u8 new;
         event_type := u8 ty;
         event_subtype := u8 subtype;
         comm := bpf_get_current_comm c |} ].

Definition trace_listen_state (K : tcp_states) :=
  count_and_emit F_listen_state (TCP_LISTEN K) (TCP_LISTEN K)
    STATE_PROCESSING SUBTYPE_NONE.
Definition trace_syn_sent_state (K : tcp_states) :=
  count_and_emit F_syn_sent_state (TCP_SYN_SENT K) (TCP_SYN_SENT K)
    STATE_PROCESSING SUBTYPE_NONE.
Definition trace_syn_recv_to_established (K : tcp_states) :=
  count_and_emit F_syn_recv_to_established (TCP_SYN_RECV K) (TCP_ESTABLISHED K)
    STATE_TRANSITION SUBTYPE_NONE.
Definition trace_fin_wait1_to_fin_wait2 (K : tcp_states) :=
  count_and_emit F_fin_wait1_to_fin_wait2 (TCP_FIN_WAIT1 K) (TCP_FIN_WAIT2 K)
    STATE_TRANSITION SUBTYPE_NONE.
Definition trace_to_time_wait (K : tcp_states) :=
  count_and_emit F_to_time_wait 0 (TCP_TIME_WAIT K)
    STATE_TRANSITION SUBTYPE_NONE.
Definition trace_last_ack (K : tcp_states) :=
  count_and_emit F_to_last_ack (TCP_LAST_ACK K) (TCP_LAST_ACK K)
    STATE_PROCESSING SUBTYPE_NONE.
Definition trace_challenge_ack :=
  count_and_emit F_challenge_acks 0 0 STATE_ERROR SUBTYPE_CHALLENGE_ACK.
Definition trace_reset :=
  count_and_emit F_resets 0 0 STATE_ERROR SUBTYPE_RESET.
Definition trace_fast_open :=
  count_and_emit F_fast_open_checks 0 0 STATE_PROCESSING SUBTYPE_FAST_OPEN.
Definition trace_ack_processing :=
  count_and_emit F_ack_processing 0 0 STATE_PROCESSING SUBTYPE_ACK_PROCESS.
Definition trace_data_queue :=
  count_and_emit F_data_queued 0 0 STATE_PROCESSING SUBTYPE_DATA_QUEUE.
Definition trace_abort_on_data :=
  count_and_emit F_abort_on_data 0 0 STATE_ERROR SUBTYPE_ABORT_DATA.

Inductive probe :=
  | P_listen_state | P_syn_sent_state | P_syn_recv_to_established
  | P_fin_wait1_to_fin_wait2 | P_to_time_wait | P_last_ack
  | P_challenge_ack | P_reset | P_fast_open | P_ack_processing
  | P_data_queue | P_abort_on_data.

(** The counter each branch probe advances. *)
Definition field_of (p : probe) : stat_field :=
  match p with
  | P_listen_state => F_listen_state
  | P_syn_sent_state => F_syn_sent_state
  | P_syn_recv_to_established => F_syn_recv_to_established
  | P_fin_wait1_to_fin_wait2 => F_fin_wait1_to_fin_wait2
  | P_to_time_wait => F_to_time_wait
  | P_last_ack => F_to_last_ack
  | P_challenge_ack => F_challenge_acks
  | P_reset => F_resets
  | P_fast_open => F_fast_open_checks
  | P_ack_processing => F_ack_processing
  | P_data_queue => F_data_queued
  | P_abort_on_data => F_abort_on_data
  end.

Definition branch (K : tcp_states) (p : probe)
  : probe_ctx → state → outcome state tcp_state_event :=
  match p with
  | P_listen_state => trace_listen_state K
  | P_syn_sent_state => trace_syn_sent_state K
  | P_syn_recv_to_established => trace_syn_recv_to_established K
  | P_fin_wait1_to_fin_wait2 => trace_fin_wait1_to_fin_wait2 K
  | P_to_time_wait => trace_to_time_wait K
  | P_last_ack => trace_last_ack K
  | P_challenge_ack => trace_challenge_ack
  | P_reset => trace_reset
  | P_fast_open => trace_fast_open
  | P_ack_processing => trace_ack_processing
  | P_data_queue => trace_data_queue
  | P_abort_on_data => trace_abort_on_data
  end.

Inductive observation :=
  | Main (c : probe_ctx) (sk_state : option Z)
  | Branch (p : probe) (c : probe_ctx).

Definition handle (K : tcp_states) (o : observation) (s : state)
  : outcome state tcp_state_event :=
  match o with
  | Main c sk_state => trace_tcp_rcv_state_process c sk_state s
  | Branch p c => branch K p c s
  end.

Definition run (K : tcp_states) (tr : list observation) (s : state) : state :=
  fold_left (λ s o, next (handle K o s)) tr s.

(** The counter an observation advances, the socket state it reads. *)
Definition counts (f : stat_field) (o : observation) : bool :=
  match o with
  | Main _ _ => stat_field_eqb F_total_calls f
  | Branch p _ => stat_field_eqb (field_of p) f
  end.

Definition reads_state (v : Z) (o : observation) : bool :=
  match o with
  | Main _ sk_state => bool_decide (get_sk_state sk_state = v)
  | Branch _ _ => false
  end.

Definition is_main (o : observation) : bool :=
  match o with Main _ _ => true | Branch _ _ => false end.

(** Number of observations of [tr] that satisfy [P]. *)
Definition occurrences (P : observation → bool) (tr : list observation) : Z :=
  Z.of_nat (length (filter (λ o, P o = true) tr)).

(** All keys of [state_distribution] are byte values. *)
Definition byte_keys (m : gmap Z Z) : Prop :=
  ∀ k v, m !! k = Some v → 0 ≤ k < 256.

End StateProcess.

(** ** tcp_congestion_control.bpf.c *)
Module CongestionControl.

Definition TCP_CA_NAME_MAX : nat := 16.

Definition EVENT_ASSIGN_CC : Z := 1.
Definition EVENT_INIT_CC : Z := 2.
Definition EVENT_SET_CC : Z := 3.
Definition EVENT_REINIT_CC : Z := 4.
Definition EVENT_CLEANUP_CC : Z := 5.

Record cc_event := CcEvent {
  pid : Z;            (* u32 *)
  tgid : Z;           (* u32 *)
  ts_uptime_us : Z;   (* u64 *)
  event_type : Z;     (* u8 *)
  ca_name : string;   (* char[TCP_CA_NAME_MAX] *)
  comm : string;
  saddr : Z;          (* u32 *)
  daddr : Z;          (* u32 *)
  sport : Z;          (* u16 *)
  dport : Z           (* u16 *)
}.

(** [BPF_HASH(socket_tracking, struct sock*, struct cc_event)], keyed by the
    socket's address. *)
Record state := State { socket_tracking : gmap Z cc_event }.

Definition init : state := {| socket_tracking := ∅ |}.

(** What the handlers read through [sk]: its address, the four connection
    fields, and the name behind [icsk_ca_ops] ([None]: the pointer is NULL
    or unreadable; [Some None]: the name is unreadable). *)
Record sock := Sock {
  sk : Z;
  inet_saddr : option Z;
  inet_daddr : option Z;
  inet_sport : option Z;
  inet_dport : option Z;
  icsk_ca_ops_name : option (option string)
}.

(** [bpf_probe_read_kernel_str] / [bpf_probe_read_user_str] into a buffer of
    [size] bytes: at most [size - 1] characters, or the empty string when
    the read faults. *)
Definition bpf_probe_read_str (size : nat) (src : option string) : string :=
  match src with
  | Some str => String.substring 0 (size - 1) str
  | None => EmptyString
  end.

(** [if (ptr) bpf_probe_read_kernel_str(&event.ca_name, ..., &ptr->name)]
    on a zeroed event. *)
Definition read_ca_name (ops : option (option string)) : string :=
  match ops with
  | Some name => bpf_probe_read_str TCP_CA_NAME_MAX name
  | None => EmptyString
  end.

(** The event every handler builds: the common fields, the name, and
    [get_conn_info]. *)
Definition new_event (c : probe_ctx) (ty : Z) (name : string) (so : sock)
  : cc_event :=
  let pid_tgid := bpf_get_current_pid_tgid c in
  {| pid := u32 pid_tgid;
     tgid := u32 (Z.shiftr pid_tgid 32);
     ts_uptime_us := bpf_ktime_get_ns c / 1000;
     event_type := u8 ty;
     ca_name := name;
     comm := bpf_get_current_comm c;
     saddr := bpf_probe_read 32 (inet_saddr so);
     daddr := bpf_probe_read 32 (inet_daddr so);
     sport := bpf_probe_read 16 (inet_sport so);
     dport := bpf_probe_read 16 (inet_dport so) |}.

Definition trace_assign_cc (c : probe_ctx) (so : sock) (s : state)
  : outcome state cc_event :=
  let event := new_event c EVENT_ASSIGN_CC (read_ca_name (icsk_ca_ops_name so)) so in
  Outcome 0
    {| socket_tracking :=
         hash_update BPF_HASH_DEFAULT_SIZE (sk so) event (socket_tracking s) |}
    [event].

Definition trace_init_cc (c : probe_ctx) (so : sock) (s : state)
  : outcome state cc_event :=
  Outcome 0 s
    [new_event c EVENT_INIT_CC (read_ca_name (icsk_ca_ops_name so)) so].

(** [name] is the user-space string passed to the traced function. *)
Definition trace_set_cc (c : probe_ctx) (so : sock) (name : option string)
    (s : state) : outcome state cc_event :=
  Outcome 0 s
    [new_event c EVENT_SET_CC (bpf_probe_read_str TCP_CA_NAME_MAX name) so].

(** [ca] is the [struct tcp_congestion_ops*] argument, read like
    [icsk_ca_ops]. *)
Definition trace_reinit_cc (c : probe_ctx) (so : sock)
    (ca : option (option string)) (s : state) : outcome state cc_event :=
  Outcome 0 s [new_event c EVENT_REINIT_CC (read_ca_name ca) so].

Definition trace_cleanup_cc (c : probe_ctx) (so : sock) (s : state)
  : outcome state cc_event :=
  Outcome 0
    {| socket_tracking := hash_delete (sk so) (socket_tracking s) |}
    [new_event c EVENT_CLEANUP_CC (read_ca_name (icsk_ca_ops_name so)) so].

Inductive observation :=
  | AssignCc (c : probe_ctx) (so : sock)
  | InitCc (c : probe_ctx) (so : sock)
  | SetCc (c : probe_ctx) (so : sock) (name : option string)
  | ReinitCc (c : probe_ctx) (so : sock) (ca : option (option string))
  | CleanupCc (c : probe_ctx) (so : sock).

Definition handle (o : observation) (s : state) : outcome state cc_event :=
  match o with
  | AssignCc c so => trace_assign_cc c so s
  | InitCc c so => trace_init_cc c so s
  | SetCc c so name => trace_set_cc c so name s
  | ReinitCc c so ca => trace_reinit_cc c so ca s
  | CleanupCc c so => trace_cleanup_cc c so s
  end.

Definition run (tr : list observation) (s : state) : state :=
  fold_left (λ s o, next (handle o s)) tr s.

Definition sock_of (o : observation) : Z :=
  match o with
  | AssignCc _ so | InitCc _ so | SetCc _ so _ | ReinitCc _ so _
  | CleanupCc _ so => sk so
  end.

(** The declared event type of each probe. *)
Definition type_of (o : observation) : Z :=
  match o with
  | AssignCc _ _ => EVENT_ASSIGN_CC
  | InitCc _ _ => EVENT_INIT_CC
  | SetCc _ _ _ => EVENT_SET_CC
  | ReinitCc _ _ _ => EVENT_REINIT_CC
  | CleanupCc _ _ => EVENT_CLEANUP_CC
  end.

(** What every record kept in [socket_tracking] looks like. *)
Definition tracked_by_assign (s : state) : Prop :=
  ∀ k e, socket_tracking s !! k = Some e →
         event_type e = EVENT_ASSIGN_CC
         ∧ (String.length (ca_name e) < TCP_CA_NAME_MAX)%nat.

End CongestionControl.

(** ** Counter increments: further vocabulary *)
Module CounterExt.
Import Counter.

(** The schedule in which context 0 runs both its steps, then context 1,
    and so on up to context [n - 1]. *)
Definition one_after_another (n : nat) : list nat :=
  flat_map (λ i, [i; i]) (seq 0 n).

(** Invariant of a run of plain increments that started from [cell0]:
    neither the cell nor any loaded value is below [cell0] or above [cell0]
    plus the number of finished contexts, and once a context has finished
    the cell is above [cell0]. *)
Definition plain_inv (cell0 : Z) (m : machine) : Prop :=
  let done_ := Z.of_nat (finished_count (locals m)) in
  cell0 ≤ shared m ≤ cell0 + done_
  ∧ (0 < done_ → cell0 < shared m)
  ∧ Forall (λ l, match l with
                 | Loaded r => cell0 ≤ r ≤ cell0 + done_
                 | _ => True
                 end) (locals m).

End CounterExt.

(** * Properties *)

(** ** Fixed-width arithmetic *)

Lemma u64_small x : 0 ≤ x < 2 ^ 64 → u64 x = x.
Proof. intros. unfold u64. by apply Z.mod_small. Qed.

Lemma u8_small x : 0 ≤ x < 2 ^ 8 → u8 x = x.
Proof. intros. unfold u8. by apply Z.mod_small. Qed.

Lemma u32_range x : 0 ≤ u32 x < 2 ^ 32.
Proof. unfold u32. apply Z.mod_pos_bound. lia. Qed.

(** Shifting a value that already fits in 32 bits right by 32 leaves
    nothing. *)
Lemma u32_shiftr_32 x : u32 (Z.shiftr (u32 x) 32) = 0.
Proof.
  rewrite Z.shiftr_div_pow2 by lia.
  rewrite Z.div_small by apply u32_range. done.
Qed.

(** ** BPF hash maps *)

Section bpf_hash_facts.
Context {V : Type}.
Implicit Types (m : gmap Z V) (k : Z) (v : V) (cap : Z).

Lemma hash_update_accepted cap k v m :
  accepts cap k m → hash_update cap k v m = <[k:=v]> m.
Proof.
  unfold accepts, hash_update. intros [[x Hx]|Hlt].
  - by rewrite Hx.
  - destruct (m !! k); [done|]. by rewrite decide_True.
Qed.

Lemma hash_update_rejected cap k v m :
  ¬ accepts cap k m → hash_update cap k v m = m.
Proof.
  unfold accepts, hash_update. intros Hn.
  destruct (m !! k) eqn:Hk.
  - exfalso. apply Hn. left. by eexists.
  - rewrite decide_False; [done|]. intros Hlt. apply Hn. by right.
Qed.

Lemma accepts_dec cap k m : accepts cap k m ∨ ¬ accepts cap k m.
Proof.
  unfold accepts. destruct (m !! k) eqn:Hk.
  - left. left. by eexists.
  - destruct (decide (Z.of_nat (size m) < cap)) as [Hlt|Hge].
    + left. by right.
    + right. intros [[x Hx]|Hlt]; [congruence|done].
Qed.

(** Writing the same key twice with [update] is the same as writing it
    once with the later value, whether or not the table is full. *)
Lemma hash_update_update cap k v1 v2 m :
  hash_update cap k v2 (hash_update cap k v1 m) = hash_update cap k v2 m.
Proof.
  destruct (accepts_dec cap k m) as [Ha|Hn].
  - rewrite (hash_update_accepted cap k v1 m Ha).
    rewrite (hash_update_accepted cap k v2 m Ha).
    rewrite hash_update_accepted by (left; rewrite lookup_insert_eq; by eexists).
    apply insert_insert_eq.
  - by rewrite (hash_update_rejected cap k v1 m Hn).
Qed.

Lemma hash_update_lookup cap k v m :
  accepts cap k m → hash_update cap k v m !! k = Some v.
Proof. intros Ha. rewrite hash_update_accepted by done. apply lookup_insert_eq. Qed.

Lemma hash_update_full cap k v m :
  m !! k = None → cap ≤ Z.of_nat (size m) → hash_update cap k v m = m.
Proof.
  intros Hk Hfull. unfold hash_update. rewrite Hk.
  rewrite decide_False; [done|lia].
Qed.

Lemma hash_insert_full cap k v m :
  m !! k = None → cap ≤ Z.of_nat (size m) → hash_insert cap k v m = m.
Proof.
  intros Hk Hfull. unfold hash_insert. rewrite Hk.
  rewrite decide_False; [done|lia].
Qed.

(** The capacity bound is an invariant of every table operation. *)
Lemma hash_update_size cap k v m :
  Z.of_nat (size m) ≤ cap → Z.of_nat (size (hash_update cap k v m)) ≤ cap.
Proof.
  intros Hle. unfold hash_update. destruct (m !! k) eqn:Hk.
  - rewrite map_size_insert_Some; [done|by eexists].
  - case_decide; [|done]. rewrite map_size_insert_None by done. lia.
Qed.

Lemma hash_insert_size cap k v m :
  Z.of_nat (size m) ≤ cap → Z.of_nat (size (hash_insert cap k v m)) ≤ cap.
Proof.
  intros Hle. unfold hash_insert. destruct (m !! k) eqn:Hk; [done|].
  case_decide; [|done]. rewrite map_size_insert_None by done. lia.
Qed.

Lemma hash_delete_size cap k m :
  Z.of_nat (size m) ≤ cap → Z.of_nat (size (hash_delete k m)) ≤ cap.
Proof.
  intros Hle. unfold hash_delete.
  rewrite map_size_delete. destruct (m !! k); simpl; lia.
Qed.

Lemma dom_hash_update_accepted cap k v m :
  accepts cap k m → dom (hash_update cap k v m) = {[k]} ∪ dom m.
Proof. intros Ha. rewrite hash_update_accepted by done. apply dom_insert_L. Qed.
End bpf_hash_facts.

(** Two tables with the same keys and the same capacity accept the same
    writes. *)
Lemma accepts_same_dom {A B : Type} cap k (m1 : gmap Z A) (m2 : gmap Z B) :
  dom m1 = dom m2 → accepts cap k m1 → accepts cap k m2.
Proof.
  unfold accepts. intros Hd [Hs|Hlt].
  - left. apply elem_of_dom. rewrite <- Hd. by apply elem_of_dom.
  - right. rewrite <- (size_dom m2), <- Hd, size_dom. done.
Qed.

(** ** tcp_v4_connect: invariants of the correlation maps *)

Module ConnectFacts.
Import Connect.

Lemma run_cons o tr s :
  run (o :: tr) s =
    ((run tr (next (handle o s))).1,
     emitted (handle o s) ++ (run tr (next (handle o s))).2).
Proof. simpl. by destruct (run tr (next (handle o s))). Qed.

Lemma with_latency_app evs1 evs2 :
  with_latency (evs1 ++ evs2) = (with_latency evs1 + with_latency evs2)%nat.
Proof. unfold with_latency. by rewrite filter_app, length_app. Qed.

Lemma with_latency_one e :
  with_latency [e] = if decide (latency_ns e = 0) then 0%nat else 1%nat.
Proof.
  unfold with_latency. case_decide as H.
  - rewrite filter_cons_False by (intros Hn; by apply Hn). done.
  - by rewrite filter_cons_True.
Qed.

(** Every intermediate handler is an instance of [trace_branch]. *)
Lemma intermediate_is_branch p :
  ∃ branch err path,
    intermediate p = trace_branch branch err path ∧ 0 ≤ branch ≤ 20.
Proof.
  destruct p; simpl; eexists _, _, _; (split; [reflexivity|]);
    vm_compute; split; discriminate.
Qed.

Lemma finds_record_false o s :
  finds_record o s = false → connect_tracking s !! key_of o = None.
Proof.
  unfold finds_record. intros H%bool_decide_eq_false.
  destruct (connect_tracking s !! key_of o) eqn:E; [|done].
  exfalso. apply H. by eexists.
Qed.

(** *** [same_keys] *)

Lemma trace_branch_same_keys branch err path c s :
  same_keys s → same_keys (next (trace_branch branch err path c s)).
Proof.
  unfold same_keys, trace_branch, hash_lookup. intros Hd.
  destruct (connect_tracking s !! _) eqn:Hk; simpl; [|done].
  rewrite dom_insert_L, Hd.
  apply elem_of_dom_2 in Hk.
  apply (anti_symm (⊆)); [apply union_subseteq_r|].
  apply union_least; [by apply singleton_subseteq_l|done].
Qed.

Lemma handle_same_keys o s : same_keys s → same_keys (next (handle o s)).
Proof.
  intros Hd. destruct o as [c a|p c|c]; simpl.
  - unfold trace_tcp_v4_connect, same_keys in *. simpl.
    set (tid := u32 (bpf_get_current_pid_tgid c)).
    destruct (accepts_dec BPF_HASH_DEFAULT_SIZE tid (connect_start_times s))
      as [Ha|Hn].
    + rewrite !dom_hash_update_accepted; [by rewrite Hd| |done].
      by eapply accepts_same_dom.
    + rewrite !hash_update_rejected; [done| |done].
      intros Ha. apply Hn. by eapply accepts_same_dom.
  - destruct (intermediate_is_branch p) as (b & e & pa & -> & _).
    by apply trace_branch_same_keys.
  - unfold trace_tcp_v4_connect_return, same_keys, hash_lookup, hash_delete in *.
    destruct (connect_tracking s !! _) eqn:Hk; simpl; [|done].
    destruct (connect_start_times s !! _) eqn:Hs.
    + by rewrite !dom_delete_L, Hd.
    + apply elem_of_dom_2 in Hk. rewrite <- Hd in Hk.
      apply elem_of_dom in Hk. rewrite Hs in Hk. by destruct Hk.
Qed.

(** *** [starts_before] *)

Lemma handle_starts_before o s t0 :
  -1 ≤ t0 → t0 < ktime_ns (ctx_of o) < 2 ^ 64 →
  starts_before t0 s →
  starts_before (ktime_ns (ctx_of o)) (next (handle o s)).
Proof.
  intros Ht0 Hts Hs.
  assert (Hold : ∀ k t, connect_start_times s !! k = Some t →
                        0 ≤ t ≤ ktime_ns (ctx_of o)).
  { intros k t Hk. apply Hs in Hk. lia. }
  destruct o as [c a|p c|c]; simpl in *.
  - unfold trace_tcp_v4_connect, starts_before. simpl. intros k t.
    set (tid := u32 (bpf_get_current_pid_tgid c)).
    destruct (accepts_dec BPF_HASH_DEFAULT_SIZE tid (connect_start_times s))
      as [Ha|Hn].
    + rewrite hash_update_accepted by done.
      destruct (decide (tid = k)) as [->|Hne].
      * rewrite lookup_insert_eq. intros [= <-].
        unfold bpf_ktime_get_ns. rewrite u64_small by lia. lia.
      * rewrite lookup_insert_ne by done. apply Hold.
    + rewrite hash_update_rejected by done. apply Hold.
  - destruct (intermediate_is_branch p) as (b & e & pa & -> & _).
    unfold trace_branch, starts_before.
    destruct (hash_lookup _ _); simpl; apply Hold.
  - unfold trace_tcp_v4_connect_return, starts_before.
    destruct (hash_lookup _ (connect_tracking s)); simpl; [|apply Hold].
    intros k t. destruct (hash_lookup _ (connect_start_times s)); [|apply Hold].
    unfold hash_delete. intros [_ Hk]%lookup_delete_Some. by eapply Hold.
Qed.

(** *** Latency of the submitted records *)

Lemma start_of_tracked s k e :
  same_keys s → connect_tracking s !! k = Some e →
  ∃ t, connect_start_times s !! k = Some t.
Proof.
  unfold same_keys. intros Hd Hk. apply elem_of_dom_2 in Hk.
  rewrite <- Hd in Hk. apply elem_of_dom in Hk. by destruct Hk as [t Ht]; eexists.
Qed.

Lemma latency_nonzero s t0 c k t :
  -1 ≤ t0 → t0 < ktime_ns c < 2 ^ 64 → starts_before t0 s →
  connect_start_times s !! k = Some t →
  u64 (bpf_ktime_get_ns c - t) ≠ 0.
Proof.
  intros Ht0 Hts Hs Hk. apply Hs in Hk.
  unfold bpf_ktime_get_ns. rewrite (u64_small (ktime_ns c)) by lia.
  rewrite u64_small by lia. lia.
Qed.

Lemma trace_branch_latency branch err path c s t0 :
  same_keys s → starts_before t0 s →
  -1 ≤ t0 → t0 < ktime_ns c < 2 ^ 64 →
  with_latency (emitted (trace_branch branch err path c s)) =
    if bool_decide (is_Some (connect_tracking s !! u32 (bpf_get_current_pid_tgid c)))
    then 1%nat else 0%nat.
Proof.
  intros Hd Hs Ht0 Hts. unfold trace_branch, hash_lookup.
  destruct (connect_tracking s !! _) as [e|] eqn:Hk; simpl.
  - destruct (start_of_tracked _ _ _ Hd Hk) as [t Ht]. rewrite Ht.
    rewrite with_latency_one. simpl latency_ns.
    rewrite decide_False; [done|].
      by apply (latency_nonzero s t0 c (u32 (bpf_get_current_pid_tgid c)) t).
  - done.
Qed.

Lemma handle_latency o s t0 :
  same_keys s → starts_before t0 s →
  -1 ≤ t0 → t0 < ktime_ns (ctx_of o) < 2 ^ 64 →
  with_latency (emitted (handle o s)) =
    ((if is_exit o && finds_record o s then 1 else 0)
     + (if is_branch o && finds_record o s then 1 else 0))%nat.
Proof.
  intros Hd Hs Ht0 Hts. destruct o as [c a|p c|c]; simpl in *.
  - by rewrite with_latency_one.
  - destruct (intermediate_is_branch p) as (b & e & pa & -> & _).
    by erewrite trace_branch_latency.
  - unfold trace_tcp_v4_connect_return, finds_record, key_of, hash_lookup. simpl.
    destruct (connect_tracking s !! _) as [e|] eqn:Hk; simpl.
    + destruct (start_of_tracked _ _ _ Hd Hk) as [t Ht]. rewrite Ht.
      rewrite with_latency_one. simpl latency_ns.
      rewrite decide_False; [done|].
      by apply (latency_nonzero s t0 c (u32 (bpf_get_current_pid_tgid c)) t).
    + done.
Qed.

(** Over any clocked sequence, the records that carry a latency are exactly
    those submitted by an exit or an intermediate observation that found
    its record. *)
Lemma run_latency tr : ∀ s t0,
  same_keys s → starts_before t0 s → -1 ≤ t0 → clocked t0 tr →
  with_latency (run tr s).2 = (matched_exits tr s + matched_branches tr s)%nat.
Proof.
  induction tr as [|o tr IH]; intros s t0 Hd Hs Ht0 Hc; [done|].
  destruct Hc as [Hts Hc]. rewrite run_cons. simpl.
  rewrite with_latency_app.
  rewrite (handle_latency o s t0) by done.
  rewrite (IH (next (handle o s)) (ktime_ns (ctx_of o))).
  - lia.
  - by apply handle_same_keys.
  - by apply (handle_starts_before o s t0).
  - lia.
  - done.
Qed.

Lemma matched_branches_none tr : ∀ s,
  Forall (λ o, is_branch o = false) tr → matched_branches tr s = 0%nat.
Proof.
  induction tr as [|o tr IH]; intros s Hf; [done|].
  inversion Hf as [|? ? Ho Htr]; subst. simpl. rewrite Ho. simpl.
  by apply IH.
Qed.

Lemma init_same_keys : same_keys init.
Proof. done. Qed.

Lemma init_starts_before t0 : starts_before t0 init.
Proof. intros k t Hk. simpl in Hk. by rewrite lookup_empty in Hk. Qed.

(** When all firings read one strictly increasing clock, every matched exit
    submits a non-zero latency: over entry and exit observations started on
    empty maps the records with a latency are then as many as the matched
    exits. *)
Theorem latency_records_eq_matched_exits (tr : list observation) :
  Forall (λ o, is_branch o = false) tr →
  clocked (-1) tr →
  with_latency (run tr init).2 = matched_exits tr init.
Proof.
  intros Hnb Hc.
  rewrite (run_latency tr init (-1) init_same_keys (init_starts_before _))
    by (done || lia).
  rewrite matched_branches_none by done. lia.
Qed.

(** *** Tags of the submitted records *)

Lemma entry_event_well_tagged c tid ts_us sa da sp dp cm :
  well_tagged
    {| pid := tid; tgid := u32 (Z.shiftr (u32 (bpf_get_current_pid_tgid c)) 32);
       ts_uptime_us := ts_us; latency_ns := 0;
       branch_type := u8 CONNECT_ENTRY; path_type := 0;
       error_code := s32 ERR_NONE;
       saddr := sa; daddr := da; sport := sp; dport := dp; comm := cm |}.
Proof. split; simpl; [apply u32_shiftr_32|]. vm_compute. split; discriminate. Qed.

Lemma trace_branch_well_tagged branch err path c s :
  0 ≤ branch ≤ 20 → tracking_well_tagged s →
  tracking_well_tagged (next (trace_branch branch err path c s))
  ∧ Forall well_tagged (emitted (trace_branch branch err path c s)).
Proof.
  intros Hb Hinv. unfold trace_branch, hash_lookup.
  destruct (connect_tracking s !! _) as [e|] eqn:Hk; simpl; [|by split].
  destruct (Hinv _ _ Hk) as [Htg Hbt].
  assert (Hnew : ∀ ts lat pt ec,
    well_tagged
      {| pid := pid e; tgid := tgid e; ts_uptime_us := ts; latency_ns := lat;
         branch_type := u8 branch; path_type := pt; error_code := ec;
         saddr := saddr e; daddr := daddr e; sport := sport e;
         dport := dport e; comm := comm e |}).
  { intros. split; simpl; [done|]. rewrite u8_small; lia. }
  split.
  - intros k e' Hk'. cbn [next connect_tracking] in Hk'.
    apply lookup_insert_Some in Hk' as [[_ <-]|[_ Hk']];
      [apply Hnew|by eapply Hinv].
  - constructor; [apply Hnew|constructor].
Qed.

Lemma handle_well_tagged o s :
  tracking_well_tagged s →
  tracking_well_tagged (next (handle o s))
  ∧ Forall well_tagged (emitted (handle o s)).
Proof.
  intros Hinv. destruct o as [c a|p c|c]; simpl.
  - unfold trace_tcp_v4_connect. simpl. split.
    + intros k e. set (tid := u32 (bpf_get_current_pid_tgid c)).
      cbn [connect_tracking].
      destruct (accepts_dec BPF_HASH_DEFAULT_SIZE tid (connect_tracking s))
        as [Ha|Hn].
      * rewrite hash_update_accepted by done.
        intros [[_ <-]|[_ Hk]]%lookup_insert_Some;
          [apply entry_event_well_tagged|by eapply Hinv].
      * rewrite hash_update_rejected by done. apply Hinv.
    + constructor; [apply entry_event_well_tagged|constructor].
  - destruct (intermediate_is_branch p) as (b & e & pa & -> & Hb).
    by apply trace_branch_well_tagged.
  - unfold trace_tcp_v4_connect_return, hash_lookup, hash_delete.
    destruct (connect_tracking s !! _) as [e|] eqn:Hk; simpl; [|by split].
    destruct (Hinv _ _ Hk) as [Htg Hbt]. split.
    + intros k e'. cbn [connect_tracking].
      intros [_ Hk']%lookup_delete_Some. by eapply Hinv.
    + constructor; [|constructor]. split; simpl; [done|].
      case_decide; [vm_compute; split; discriminate|done].
Qed.

Lemma run_well_tagged tr : ∀ s,
  tracking_well_tagged s → Forall well_tagged (run tr s).2.
Proof.
  induction tr as [|o tr IH]; intros s Hinv; [constructor|].
  rewrite run_cons. simpl.
  destruct (handle_well_tagged o s Hinv) as [Hnext Hem].
  apply Forall_app. split; [done|by apply IH].
Qed.

Lemma init_well_tagged : tracking_well_tagged init.
Proof. intros k e Hk. simpl in Hk. by rewrite lookup_empty in Hk. Qed.

(** C9. In every record submitted by the tcp_v4_connect handlers (entry,
    intermediate and exit alike, over any sequence of firings started on
    empty maps) the [tgid] field is 0: the entry handler keeps only the low
    32 bits of the pid/tgid value in [tid] and then shifts that 32-bit
    value right by 32, and the later handlers resubmit the stored record
    without touching the field. *)
Theorem connect_tgid_always_zero (tr : list observation) :
  Forall (λ e, tgid e = 0) (run tr init).2.
Proof.
  eapply Forall_impl; [apply (run_well_tagged tr init init_well_tagged)|].
  by intros e [Htg _].
Qed.

(** *** Second entry for a live key *)

Lemma connect_entry_twice_same_store c1 a1 c2 a2 s :
  u32 (bpf_get_current_pid_tgid c1) = u32 (bpf_get_current_pid_tgid c2) →
  next (trace_tcp_v4_connect c2 a2 (next (trace_tcp_v4_connect c1 a1 s))) =
  next (trace_tcp_v4_connect c2 a2 s).
Proof.
  intros Hk. unfold trace_tcp_v4_connect. simpl. rewrite Hk.
  by rewrite !hash_update_update.
Qed.

Lemma return_after_entry c2 a2 c3 s :
  let tid := u32 (bpf_get_current_pid_tgid c2) in
  u32 (bpf_get_current_pid_tgid c3) = tid →
  accepts BPF_HASH_DEFAULT_SIZE tid (connect_start_times s) →
  accepts BPF_HASH_DEFAULT_SIZE tid (connect_tracking s) →
  ∃ e, emitted (trace_tcp_v4_connect_return c3
                  (next (trace_tcp_v4_connect c2 a2 s))) = [e]
       ∧ latency_ns e = u64 (bpf_ktime_get_ns c3 - bpf_ktime_get_ns c2).
Proof.
  intros tid Hk Ha1 Ha2.
  unfold trace_tcp_v4_connect_return, trace_tcp_v4_connect, hash_lookup.
  simpl. rewrite Hk. fold tid.
  rewrite !hash_update_lookup by done. simpl.
  eexists. split; [reflexivity|done].
Qed.

(** The two scenarios of the design document, on the connect handlers:
    entry at 100 and exit at 250 give latency 150 and a second exit finds
    nothing; entries at 100 and 105 and exit at 300 give latency 195. *)
Example scenario_begin_resolve :
  let c t := ProbeCtx 7 t 0 "curl" in
  let a := ConnectArgs None None None None in
  latency_ns <$> (run [Entry (c 100) a; Exit (c 250); Exit (c 260)] init).2
    = [0; 150]
  ∧ latency_ns <$> (run [Entry (c 100) a; Entry (c 105) a; Exit (c 300)] init).2
    = [0; 0; 195].
Proof. split; reflexivity. Qed.

End ConnectFacts.

(** ** tcp_v4_rcv: branch types and drop reasons *)

Module RcvFacts.
Import Rcv.

(** Every firing submits exactly one record. *)
Lemma handle_emits_one p c : ∃ e, emitted (handle p c) = [e].
Proof. destruct p; simpl; by eexists. Qed.

Lemma handle_branch_range p c :
  Forall (λ e, 0 ≤ branch_type e ≤ 18) (emitted (handle p c)).
Proof.
  destruct p; simpl; (constructor; [|constructor]); simpl;
    vm_compute; split; discriminate.
Qed.

(** Apart from the listen-drop probe, a record carries a drop reason exactly
    when its branch type is one of the drop branches. *)
Lemma reason_iff_drop_branch_elsewhere p c :
  p ≠ P_listen_drop →
  Forall (λ e, drop_reason e ≠ 0 ↔ is_drop_branch (branch_type e) = true)
         (emitted (handle p c)).
Proof.
  intros Hp. destruct p; try done; simpl; (constructor; [|constructor]);
    simpl; vm_compute; split; (discriminate || done || (intros H; by destruct H)).
Qed.

(** C5. The record submitted by [trace_listen_drop] has branch type
    TCP_BRANCH_LISTEN_DROP, which the source names a drop ("listen
    overflow/drop"), and a zero [drop_reason]: the handler never assigns the
    field, unlike the handlers of the other drop branches. *)
Theorem listen_drop_carries_no_reason (c : probe_ctx) :
  ∃ e, emitted (trace_listen_drop c) = [e]
       ∧ branch_type e = TCP_BRANCH_LISTEN_DROP
       ∧ is_drop_branch (branch_type e) = true
       ∧ drop_reason e = 0.
Proof. eexists. split; [reflexivity|]. by vm_compute. Qed.

End RcvFacts.

(** ** Page faults *)

Module PageFaultFacts.
Import PageFault.

Lemma handle_size (W I : Z) o s :
  Z.of_nat (size (fault_entry s)) ≤ FAULT_ENTRY_SIZE →
  Z.of_nat (size (fault_entry (next (handle W I o s)))) ≤ FAULT_ENTRY_SIZE.
Proof.
  intros Hle. destruct o as [c address flags|c]; simpl.
  - by apply hash_update_size.
  - unfold trace_handle_mm_fault_return.
    destruct (hash_lookup _ _); [|done].
    case_decide; simpl; by apply hash_delete_size.
Qed.

Lemma run_size (W I : Z) tr : ∀ s,
  Z.of_nat (size (fault_entry s)) ≤ FAULT_ENTRY_SIZE →
  Z.of_nat (size (fault_entry (run W I tr s))) ≤ FAULT_ENTRY_SIZE.
Proof.
  induction tr as [|o tr IH]; intros s Hle; [done|].
  simpl. apply IH. by apply handle_size.
Qed.

Lemma fault_entry_twice_same_store c1 address1 flags1 c2 address2 flags2 s :
  u32 (bpf_get_current_pid_tgid c1) = u32 (bpf_get_current_pid_tgid c2) →
  next (trace_handle_mm_fault_entry c2 address2 flags2
          (next (trace_handle_mm_fault_entry c1 address1 flags1 s))) =
  next (trace_handle_mm_fault_entry c2 address2 flags2 s).
Proof.
  intros Hk. unfold trace_handle_mm_fault_entry. simpl. rewrite Hk.
  by rewrite hash_update_update.
Qed.

Lemma fault_return_miss (W I : Z) c s :
  fault_entry s !! u32 (bpf_get_current_pid_tgid c) = None →
  trace_handle_mm_fault_return W I c s = Outcome 0 s [].
Proof. intros Hk. unfold trace_handle_mm_fault_return, hash_lookup. by rewrite Hk. Qed.

(** C10. When the entry record for the key is in [fault_entry], the
    page-fault return handler submits a record if and only if the return
    value has no VM_FAULT_ERROR bit; in both cases the entry record is
    deleted; and the timestamp of the submitted record is the entry time
    divided by 1000, whatever the clock reads at the return. *)
Theorem fault_return_emits_iff_no_error (W I : Z) (c : probe_ctx) (s : state)
    (info : page_fault_info) :
  fault_entry s !! u32 (bpf_get_current_pid_tgid c) = Some info →
  (Z.land (PT_REGS_RC c) VM_FAULT_ERROR = 0 →
     ∃ e, emitted (trace_handle_mm_fault_return W I c s) = [e]
          ∧ ts_uptime_us e = ts_start info / 1000)
  ∧ (Z.land (PT_REGS_RC c) VM_FAULT_ERROR ≠ 0 →
     emitted (trace_handle_mm_fault_return W I c s) = [])
  ∧ fault_entry (next (trace_handle_mm_fault_return W I c s)) =
      delete (u32 (bpf_get_current_pid_tgid c)) (fault_entry s)
  ∧ fault_entry (next (trace_handle_mm_fault_return W I c s))
      !! u32 (bpf_get_current_pid_tgid c) = None.
Proof.
  intros Hk. unfold trace_handle_mm_fault_return, hash_lookup, hash_delete.
  rewrite Hk. case_decide as Herr; simpl.
  - split; [intros; done|]. split; [done|]. split; [done|].
    apply lookup_delete_eq.
  - split; [intros _; by eexists|]. split; [intros; done|]. split; [done|].
    apply lookup_delete_eq.
Qed.

End PageFaultFacts.

(** ** zswap *)

Module ZswapFacts.
Import Zswap.

Lemma zswap_entry_twice_same_store c1 c2 s :
  bpf_get_current_pid_tgid c1 = bpf_get_current_pid_tgid c2 →
  next (trace_zswap_store_entry c2 (next (trace_zswap_store_entry c1 s))) =
  next (trace_zswap_store_entry c2 s).
Proof.
  intros Hk. unfold trace_zswap_store_entry. simpl. rewrite Hk.
  by rewrite hash_update_update.
Qed.



End ZswapFacts.

(** ** madvise *)

Module MadviseFacts.
Import Madvise.



End MadviseFacts.

Module MadviseMunmapFacts.
Import MadviseMunmap.

Lemma handle_within_capacity o s :
  within_capacity s → within_capacity (next (handle o s)).
Proof.
  intros [Hm Hu]. destruct o; simpl.
  - split; simpl; [by apply hash_insert_size|done].
  - unfold kretprobe__do_madvise. case_decide; [|done].
    split; simpl; [by apply hash_delete_size|done].
  - split; simpl; [done|by apply hash_insert_size].
  - unfold kretprobe__do_vmi_align_munmap.
    destruct (hash_lookup _ _); [|done]. case_decide; [|done].
    split; simpl; [done|by apply hash_delete_size].
Qed.

Lemma run_within_capacity tr : ∀ s,
  within_capacity s → within_capacity (run tr s).
Proof.
  induction tr as [|o tr IH]; intros s Hs; [done|].
  simpl. apply IH. by apply handle_within_capacity.
Qed.

(** The madvise return handler of this revision never submits a record,
    whatever the return value and whatever the table holds. *)
Lemma kretprobe__do_madvise_never_emits c s :
  emitted (kretprobe__do_madvise c s) = [].
Proof. unfold kretprobe__do_madvise. by case_decide. Qed.

(** On a successful return it also leaves the entry record in the table. *)
Lemma kretprobe__do_madvise_success_keeps_record c s :
  s32 (PT_REGS_RC c) = 0 → kretprobe__do_madvise c s = Outcome 0 s [].
Proof.
  intros Hrc. unfold kretprobe__do_madvise.
  by rewrite decide_False by (intros Hn; by apply Hn).
Qed.

End MadviseMunmapFacts.

(** ** rss_stat *)

Module RssStatFacts.
Import RssStat.

Lemma tracepoint_miss c arg_member arg_size s :
  rss_stat_hash s !! u32 (bpf_get_current_pid_tgid c) = None →
  tracepoint__kmem__rss_stat c arg_member arg_size s = Outcome 0 s [].
Proof.
  intros Hk. unfold tracepoint__kmem__rss_stat, hash_lookup. by rewrite Hk.
Qed.

End RssStatFacts.

(** ** Counter increments *)

Module CounterFacts.
Import Counter.

Lemma finished_count_cons l ls :
  finished_count (l :: ls) =
    ((if is_finished l then 1 else 0) + finished_count ls)%nat.
Proof.
  unfold finished_count. rewrite filter_cons.
  destruct (is_finished l); simpl; try case_decide; done.
Qed.


Lemma finished_count_all ls :
  Forall (λ l, is_finished l = true) ls → finished_count ls = length ls.
Proof.
  induction 1 as [|l ls Hl _ IH]; [done|].
  rewrite finished_count_cons, Hl, IH. done.
Qed.

Lemma step_length f i m : length (locals (step f i m)) = length (locals m).
Proof.
  unfold step. destruct (locals m !! i); [|done].
  destruct (f (shared m) l). simpl. apply length_insert.
Qed.

Lemma run_schedule_length f sched : ∀ m,
  length (locals (run_schedule f sched m)) = length (locals m).
Proof.
  induction sched as [|i sched IH]; intros m; [done|].
  simpl. fold (run_schedule f sched (step f i m)).
  by rewrite IH, step_length.
Qed.





(** C7. Two contexts increment the same [branch_stats] cell, initially 0,
    the way tcp_v4_connect.bpf.c does; under the schedule load, load, store,
    store both finish and the cell holds 1, not 2. *)
Theorem plain_increment_loses_update :
  all_finished (run_schedule plain_step [0; 1; 0; 1]%nat (start 0 2))
  ∧ shared (run_schedule plain_step [0; 1; 0; 1]%nat (start 0 2)) = 1.
Proof. split; [|reflexivity]. repeat constructor. Qed.

End CounterFacts.

(** ** Properties that span several probes *)

Lemma connect_handle_miss (o : Connect.observation) (s : Connect.state) :
  Connect.is_exit o || Connect.is_branch o = true →
  Connect.finds_record o s = false →
  Connect.handle o s = Outcome 0 s [].
Proof.
  intros Hne Hmiss%ConnectFacts.finds_record_false.
  destruct o as [c a|p c|c]; simpl in *; [done| |].
  - destruct (ConnectFacts.intermediate_is_branch p) as (b & e & pa & -> & _).
    unfold Connect.trace_branch, hash_lookup. unfold Connect.key_of in Hmiss.
    simpl in Hmiss. by rewrite Hmiss.
  - unfold Connect.trace_tcp_v4_connect_return, hash_lookup.
    unfold Connect.key_of in Hmiss. simpl in Hmiss. by rewrite Hmiss.
Qed.


(** C4. An exit or intermediate observation whose key has no live record is
    skipped silently: the handler submits nothing, leaves the maps as they
    were and returns 0.  This holds for the sixteen intermediate handlers
    and the return handler of tcp_v4_connect, for the page-fault return
    handler and for the rss_stat tracepoint handler. *)
Theorem correlation_miss_is_silent_skip :
  (∀ o s,
     Connect.is_exit o || Connect.is_branch o = true →
     Connect.finds_record o s = false →
     Connect.handle o s = Outcome 0 s [])
  ∧ (∀ W I c s,
       PageFault.fault_entry s !! u32 (bpf_get_current_pid_tgid c) = None →
       PageFault.trace_handle_mm_fault_return W I c s = Outcome 0 s [])
  ∧ (∀ c arg_member arg_size s,
       RssStat.rss_stat_hash s !! u32 (bpf_get_current_pid_tgid c) = None →
       RssStat.tracepoint__kmem__rss_stat c arg_member arg_size s =
         Outcome 0 s []).
Proof.
  split; [exact connect_handle_miss|].
  split; [exact PageFaultFacts.fault_return_miss|exact RssStatFacts.tracepoint_miss].
Qed.

Lemma correlation_miss_is_silent_skip_witness :
  Connect.handle (Connect.Exit (ProbeCtx 7 250 0 "curl")) Connect.init =
    Outcome 0 Connect.init []
  ∧ Connect.handle (Connect.Branch Connect.P_invalid_addrlen
                      (ProbeCtx 7 250 0 "curl")) Connect.init =
      Outcome 0 Connect.init []
  ∧ PageFault.trace_handle_mm_fault_return 1 256 (ProbeCtx 7 250 0 "sh")
      PageFault.init = Outcome 0 PageFault.init []
  ∧ RssStat.tracepoint__kmem__rss_stat (ProbeCtx 7 250 0 "sh") 1 8192
      RssStat.init = Outcome 0 RssStat.init [].
Proof.
  destruct correlation_miss_is_silent_skip as (Hconnect & Hfault & Hrss).
  split; [apply Hconnect; reflexivity|].
  split; [apply Hconnect; reflexivity|].
  split; [apply Hfault; reflexivity|apply Hrss; reflexivity].
Defined.

(** C8. Every record submitted by the tcp_v4_connect handlers, over any
    sequence of firings started on empty maps, has a branch type among the
    declared values 0 to 20; every firing of a tcp_v4_rcv probe submits
    exactly one record, whose single branch type is among the declared
    values 0 to 18. *)
Theorem branch_outcome_in_declared_enumeration :
  (∀ tr, Forall (λ e, 0 ≤ Connect.branch_type e ≤ 20)
                (Connect.run tr Connect.init).2)
  ∧ (∀ p c, ∃ e, emitted (Rcv.handle p c) = [e]
                 ∧ 0 ≤ Rcv.branch_type e ≤ 18).
Proof.
  split.
  - intros tr. eapply Forall_impl;
      [apply (ConnectFacts.run_well_tagged tr Connect.init
                ConnectFacts.init_well_tagged)|].
    by intros e [_ Hb].
  - intros p c. destruct (RcvFacts.handle_emits_one p c) as [e He].
    exists e. split; [done|].
    pose proof (RcvFacts.handle_branch_range p c) as Hr.
    rewrite He in Hr. by inversion Hr.
Qed.

(** C6. The correlation tables never hold more records than their declared
    sizes (32768 for [madvise_hash] and [munmap_hash], 10240 for
    [fault_entry]) after any sequence of entry and return firings started on
    empty tables, sequences of entries without returns included; and an
    entry firing for a new key on a full table is rejected: the table is
    left exactly as it was. *)
Theorem correlation_store_bounded :
  (∀ tr,
     Z.of_nat (size (MadviseMunmap.madvise_hash
                       (MadviseMunmap.run tr MadviseMunmap.init))) ≤ 32768
     ∧ Z.of_nat (size (MadviseMunmap.munmap_hash
                         (MadviseMunmap.run tr MadviseMunmap.init))) ≤ 32768)
  ∧ (∀ W I tr,
       Z.of_nat (size (PageFault.fault_entry
                         (PageFault.run W I tr PageFault.init))) ≤ 10240)
  ∧ (∀ c owner_tgid addr len adv s,
       MadviseMunmap.madvise_hash s !! u32 (bpf_get_current_pid_tgid c) = None →
       32768 ≤ Z.of_nat (size (MadviseMunmap.madvise_hash s)) →
       next (MadviseMunmap.kprobe__do_madvise c owner_tgid addr len adv s) = s)
  ∧ (∀ c address flags s,
       PageFault.fault_entry s !! u32 (bpf_get_current_pid_tgid c) = None →
       10240 ≤ Z.of_nat (size (PageFault.fault_entry s)) →
       next (PageFault.trace_handle_mm_fault_entry c address flags s) = s).
Proof.
  split; [|split; [|split]].
  - intros tr.
    apply (MadviseMunmapFacts.run_within_capacity tr MadviseMunmap.init).
    split; simpl; rewrite map_size_empty; done.
  - intros W I tr. apply (PageFaultFacts.run_size W I tr PageFault.init).
    simpl. rewrite map_size_empty. done.
  - intros c owner_tgid addr len adv [mh uh] Hk Hfull. simpl in *.
    unfold MadviseMunmap.kprobe__do_madvise. simpl.
    by rewrite hash_insert_full.
  - intros c address flags [fe] Hk Hfull. simpl in *.
    unfold PageFault.trace_handle_mm_fault_entry. simpl.
    by rewrite hash_update_full.
Qed.

Lemma correlation_store_bounded_witness :
  (MadviseMunmap.madvise_hash MadviseMunmap.full_state
     !! u32 (bpf_get_current_pid_tgid (ProbeCtx 40000 100 0 "app")) = None
   ∧ 32768 ≤ Z.of_nat (size (MadviseMunmap.madvise_hash MadviseMunmap.full_state))
   ∧ next (MadviseMunmap.kprobe__do_madvise (ProbeCtx 40000 100 0 "app")
             1 4096 8192 4 MadviseMunmap.full_state) = MadviseMunmap.full_state)
  ∧ (PageFault.fault_entry PageFault.full_state
       !! u32 (bpf_get_current_pid_tgid (ProbeCtx 40000 100 0 "app")) = None
     ∧ 10240 ≤ Z.of_nat (size (PageFault.fault_entry PageFault.full_state))
     ∧ next (PageFault.trace_handle_mm_fault_entry (ProbeCtx 40000 100 0 "app")
               4096 1 PageFault.full_state) = PageFault.full_state).
Proof.
  destruct correlation_store_bounded as (_ & _ & Hmadvise & Hfault).
  split.
  - split; [vm_compute; reflexivity|]. split; [vm_compute; discriminate|].
    apply Hmadvise; [vm_compute; reflexivity|vm_compute; discriminate].
  - split; [vm_compute; reflexivity|]. split; [vm_compute; discriminate|].
    apply Hfault; [vm_compute; reflexivity|vm_compute; discriminate].
Defined.




(** C3, as the code has it.  The entry handlers that store with [update]
    (tcp_v4_connect, handle_mm_fault, zswap_store) are insert-or-overwrite:
    two entries for one key leave the maps as the second entry alone would;
    and when the connect maps had a slot for the key, the exit that follows
    submits one record whose latency is counted from the second entry. *)
Theorem begin_with_update_overwrites :
  (∀ c1 a1 c2 a2 s,
     u32 (bpf_get_current_pid_tgid c1) = u32 (bpf_get_current_pid_tgid c2) →
     next (Connect.trace_tcp_v4_connect c2 a2
             (next (Connect.trace_tcp_v4_connect c1 a1 s))) =
     next (Connect.trace_tcp_v4_connect c2 a2 s)
     ∧ (∀ c3,
          u32 (bpf_get_current_pid_tgid c3) = u32 (bpf_get_current_pid_tgid c2) →
          accepts BPF_HASH_DEFAULT_SIZE (u32 (bpf_get_current_pid_tgid c2))
            (Connect.connect_start_times s) →
          accepts BPF_HASH_DEFAULT_SIZE (u32 (bpf_get_current_pid_tgid c2))
            (Connect.connect_tracking s) →
          ∃ e, emitted (Connect.trace_tcp_v4_connect_return c3
                          (next (Connect.trace_tcp_v4_connect c2 a2
                                   (next (Connect.trace_tcp_v4_connect c1 a1 s)))))
               = [e]
               ∧ Connect.latency_ns e =
                   u64 (bpf_ktime_get_ns c3 - bpf_ktime_get_ns c2)))
  ∧ (∀ c1 address1 flags1 c2 address2 flags2 s,
       u32 (bpf_get_current_pid_tgid c1) = u32 (bpf_get_current_pid_tgid c2) →
       next (PageFault.trace_handle_mm_fault_entry c2 address2 flags2
               (next (PageFault.trace_handle_mm_fault_entry c1 address1 flags1 s))) =
       next (PageFault.trace_handle_mm_fault_entry c2 address2 flags2 s))
  ∧ (∀ c1 c2 s,
       bpf_get_current_pid_tgid c1 = bpf_get_current_pid_tgid c2 →
       next (Zswap.trace_zswap_store_entry c2
               (next (Zswap.trace_zswap_store_entry c1 s))) =
       next (Zswap.trace_zswap_store_entry c2 s)).
Proof.
  split; [|split].
  - intros c1 a1 c2 a2 s Hk.
    rewrite (ConnectFacts.connect_entry_twice_same_store c1 a1 c2 a2 s Hk).
    split; [done|]. intros c3 Hk3 Ha1 Ha2.
    by apply ConnectFacts.return_after_entry.
  - exact PageFaultFacts.fault_entry_twice_same_store.
  - exact ZswapFacts.zswap_entry_twice_same_store.
Qed.

Lemma begin_with_update_overwrites_witness :
  ∃ e, emitted (Connect.trace_tcp_v4_connect_return (ProbeCtx 7 300 0 "curl")
                  (next (Connect.trace_tcp_v4_connect (ProbeCtx 7 105 0 "curl")
                           (Connect.ConnectArgs None None None None)
                           (next (Connect.trace_tcp_v4_connect
                                    (ProbeCtx 7 100 0 "curl")
                                    (Connect.ConnectArgs None None None None)
                                    Connect.init))))) = [e]
       ∧ Connect.latency_ns e = 195.
Proof.
  destruct begin_with_update_overwrites as (Hconnect & _ & _).
  destruct (Hconnect (ProbeCtx 7 100 0 "curl")
              (Connect.ConnectArgs None None None None)
              (ProbeCtx 7 105 0 "curl")
              (Connect.ConnectArgs None None None None)
              Connect.init) as [_ Hexit]; [vm_compute; reflexivity|].
  destruct (Hexit (ProbeCtx 7 300 0 "curl")) as (e & He & Hlat).
  - vm_compute. reflexivity.
  - right. vm_compute. reflexivity.
  - right. vm_compute. reflexivity.
  - exists e. split; [exact He|]. rewrite Hlat. vm_compute. reflexivity.
Defined.

(** C3 fails as stated on the madvise entry handler, which stores with
    [insert]: a second entry for key 7 at time 105 leaves the record of the
    first entry (time 100) in place, so the table differs from the one the
    second entry alone produces. *)
Lemma madvise_second_begin_keeps_first_record :
  MadviseMunmap.ts_ns <$>
    (MadviseMunmap.madvise_hash
       (next (MadviseMunmap.kprobe__do_madvise (ProbeCtx 7 105 0 "app") 1 4096 8192 4
                (next (MadviseMunmap.kprobe__do_madvise (ProbeCtx 7 100 0 "app")
                         1 4096 8192 4 MadviseMunmap.init)))) !! 7) = Some 100
  ∧ MadviseMunmap.ts_ns <$>
      (MadviseMunmap.madvise_hash
         (next (MadviseMunmap.kprobe__do_madvise (ProbeCtx 7 105 0 "app")
                  1 4096 8192 4 MadviseMunmap.init)) !! 7) = Some 105
  ∧ next (MadviseMunmap.kprobe__do_madvise (ProbeCtx 7 105 0 "app") 1 4096 8192 4
            (next (MadviseMunmap.kprobe__do_madvise (ProbeCtx 7 100 0 "app")
                     1 4096 8192 4 MadviseMunmap.init)))
    ≠ next (MadviseMunmap.kprobe__do_madvise (ProbeCtx 7 105 0 "app")
              1 4096 8192 4 MadviseMunmap.init).
Proof.
  split; [by vm_compute|]. split; [by vm_compute|].
  intros Heq.
  apply (f_equal (λ s, MadviseMunmap.ts_ns <$> (MadviseMunmap.madvise_hash s !! 7)))
    in Heq.
  vm_compute in Heq. discriminate.
Qed.

Lemma fault_return_emits_iff_no_error_witness :
  (∃ e, emitted (PageFault.trace_handle_mm_fault_return 1 256
                   (ProbeCtx 7 9000 0 "sh")
                   (PageFault.State {[ 7 := PageFault.PageFaultInfo 7 4096 1 5000 ]}))
        = [e]
        ∧ PageFault.ts_uptime_us e = 5)
  ∧ emitted (PageFault.trace_handle_mm_fault_return 1 256
               (ProbeCtx 7 9000 1 "sh")
               (PageFault.State {[ 7 := PageFault.PageFaultInfo 7 4096 1 5000 ]}))
    = [].
Proof.
  split.
  - destruct (PageFaultFacts.fault_return_emits_iff_no_error 1 256
                (ProbeCtx 7 9000 0 "sh")
                (PageFault.State {[ 7 := PageFault.PageFaultInfo 7 4096 1 5000 ]})
                (PageFault.PageFaultInfo 7 4096 1 5000))
      as (Hemit & _); [vm_compute; reflexivity|].
    destruct Hemit as (e & He & Hts); [vm_compute; reflexivity|].
    exists e. split; [exact He|]. rewrite Hts. vm_compute. reflexivity.
  - destruct (PageFaultFacts.fault_return_emits_iff_no_error 1 256
                (ProbeCtx 7 9000 1 "sh")
                (PageFault.State {[ 7 := PageFault.PageFaultInfo 7 4096 1 5000 ]})
                (PageFault.PageFaultInfo 7 4096 1 5000))
      as (_ & Hsilent & _); [vm_compute; reflexivity|].
    apply Hsilent. vm_compute. discriminate.
Defined.

(** * Further properties of the handlers *)

(** ** BPF hash maps: other keys *)

Lemma hash_update_lookup_ne {V : Type} cap k k' (v : V) (m : gmap Z V) :
  k ≠ k' → hash_update cap k v m !! k' = m !! k'.
Proof.
  intros Hne. unfold hash_update.
  destruct (m !! k); [by rewrite lookup_insert_ne|].
  case_decide; [by rewrite lookup_insert_ne|done].
Qed.

Lemma hash_insert_lookup_ne {V : Type} cap k k' (v : V) (m : gmap Z V) :
  k ≠ k' → hash_insert cap k v m !! k' = m !! k'.
Proof.
  intros Hne. unfold hash_insert.
  destruct (m !! k); [done|].
  case_decide; [by rewrite lookup_insert_ne|done].
Qed.

Lemma hash_insert_present {V : Type} cap k (v x : V) (m : gmap Z V) :
  m !! k = Some x → hash_insert cap k v m = m.
Proof. unfold hash_insert. by intros ->. Qed.

Lemma hash_insert_absent {V : Type} cap k (v : V) (m : gmap Z V) :
  m !! k = None → Z.of_nat (size m) < cap → hash_insert cap k v m = <[k:=v]> m.
Proof. intros Hk Hlt. unfold hash_insert. rewrite Hk. by rewrite decide_True. Qed.

Lemma hash_update_absent {V : Type} cap k (v : V) (m : gmap Z V) :
  m !! k = None → Z.of_nat (size m) < cap → hash_update cap k v m = <[k:=v]> m.
Proof. intros Hk Hlt. apply hash_update_accepted. by right. Qed.

(** ** tcp_v4_connect: what the maps and the records keep *)

Module ConnectMore.
Import Connect ConnectExt.

Lemma run_state_cons o tr s :
  (run (o :: tr) s).1 = (run tr (next (handle o s))).1.
Proof. by rewrite ConnectFacts.run_cons. Qed.

Lemma run_snoc tr : ∀ o s,
  (run (tr ++ [o]) s).1 = next (handle o (run tr s).1).
Proof.
  induction tr as [|o' tr IH]; intros o s.
  - simpl. by destruct (handle o s).
  - rewrite <- app_comm_cons, !run_state_cons. apply IH.
Qed.

(** Any property of the maps that every handler keeps holds after every
    sequence. *)
Lemma run_invariant (P : state → Prop) :
  (∀ o s, P s → P (next (handle o s))) →
  ∀ tr s, P s → P (run tr s).1.
Proof.
  intros Hstep. induction tr as [|o tr IH]; intros s Hs; [done|].
  rewrite run_state_cons. apply IH. by apply Hstep.
Qed.

(** X1. After any sequence of firings started on empty maps, the two
    correlation maps of tcp_v4_connect hold exactly the same keys. *)
Theorem connect_maps_share_keys (tr : list observation) :
  dom (connect_start_times (run tr init).1)
  = dom (connect_tracking (run tr init).1).
Proof.
  apply (run_invariant same_keys ConnectFacts.handle_same_keys).
  apply ConnectFacts.init_same_keys.
Qed.

Lemma connect_handle_within_capacity o s :
  within_capacity s → within_capacity (next (handle o s)).
Proof.
  intros [Hs Ht]. destruct o as [c a|p c|c]; simpl.
  - split; simpl; by apply hash_update_size.
  - destruct (ConnectFacts.intermediate_is_branch p) as (b & e & pa & -> & _).
    unfold trace_branch, hash_lookup.
    destruct (connect_tracking s !! _) as [ev|] eqn:Hk; simpl; [|by split].
    split; simpl; [done|].
    rewrite map_size_insert_Some; [done|by eexists].
  - unfold trace_tcp_v4_connect_return, hash_lookup.
    destruct (connect_tracking s !! _) as [ev|] eqn:Hk; simpl; [|by split].
    split; simpl; [|by apply hash_delete_size].
    destruct (connect_start_times s !! _); [by apply hash_delete_size|done].
Qed.

(** X2. After any sequence of firings started on empty maps, neither
    connect map holds more than the default 10240 records. *)
Theorem connect_maps_within_capacity (tr : list observation) :
  Z.of_nat (size (connect_start_times (run tr init).1)) ≤ 10240
  ∧ Z.of_nat (size (connect_tracking (run tr init).1)) ≤ 10240.
Proof.
  apply (run_invariant within_capacity connect_handle_within_capacity).
  split; simpl; rewrite map_size_empty; done.
Qed.

Lemma entries_cons o tr :
  entries (o :: tr) = ((if is_entry o then 1 else 0) + entries tr)%nat.
Proof.
  unfold entries. rewrite filter_cons.
  destruct (is_entry o); simpl; try case_decide; done.
Qed.

Lemma handle_record_count o s :
  length (emitted (handle o s)) =
    ((if is_entry o then 1 else 0)
     + (if is_exit o && finds_record o s then 1 else 0)
     + (if is_branch o && finds_record o s then 1 else 0))%nat.
Proof.
  destruct o as [c a|p c|c]; simpl.
  - done.
  - destruct (ConnectFacts.intermediate_is_branch p) as (b & e & pa & -> & _).
    unfold trace_branch, finds_record, key_of, hash_lookup. simpl.
    by destruct (connect_tracking s !! _).
  - unfold trace_tcp_v4_connect_return, finds_record, key_of, hash_lookup. simpl.
    by destruct (connect_tracking s !! _).
Qed.

(** X3. The number of records a sequence submits is the number of entry
    observations plus the number of exit and intermediate observations that
    found their record: an entry always submits one record, a hit submits
    one, a miss none. *)
Theorem connect_record_count (tr : list observation) : ∀ s,
  length (run tr s).2 =
    (entries tr + matched_exits tr s + matched_branches tr s)%nat.
Proof.
  induction tr as [|o tr IH]; intros s; [done|].
  rewrite ConnectFacts.run_cons. simpl.
  rewrite length_app, handle_record_count, IH, entries_cons. lia.
Qed.

(** X4. A firing touches only the records of its own thread id: under every
    other key both maps read as before. *)
Theorem connect_other_keys_untouched (o : observation) (s : state) (k : Z) :
  k ≠ key_of o →
  connect_tracking (next (handle o s)) !! k = connect_tracking s !! k
  ∧ connect_start_times (next (handle o s)) !! k = connect_start_times s !! k.
Proof.
  intros Hne. destruct o as [c a|p c|c]; unfold key_of in Hne; simpl in Hne.
  - simpl. split; by apply hash_update_lookup_ne.
  - simpl. destruct (ConnectFacts.intermediate_is_branch p) as (b & e & pa & -> & _).
    unfold trace_branch, hash_lookup.
    destruct (connect_tracking s !! _); simpl; [|done].
    split; [by rewrite lookup_insert_ne|done].
  - simpl. unfold trace_tcp_v4_connect_return, hash_lookup, hash_delete.
    destruct (connect_tracking s !! _); simpl; [|done].
    split; [by rewrite lookup_delete_ne|].
    destruct (connect_start_times s !! _); [by rewrite lookup_delete_ne|done].
Qed.

Lemma connect_other_keys_untouched_witness :
  connect_tracking
    (next (handle (Exit (ProbeCtx 7 250 0 "curl"))
             (next (handle (Entry (ProbeCtx 9 120 0 "wget")
                              (ConnectArgs None None None None))
                      (next (handle (Entry (ProbeCtx 7 100 0 "curl")
                                       (ConnectArgs None None None None))
                               init)))))) !! 9
  = connect_tracking
      (next (handle (Entry (ProbeCtx 9 120 0 "wget")
                       (ConnectArgs None None None None))
               (next (handle (Entry (ProbeCtx 7 100 0 "curl")
                                (ConnectArgs None None None None))
                        init)))) !! 9.
Proof.
  apply (connect_other_keys_untouched (Exit (ProbeCtx 7 250 0 "curl"))).
  vm_compute. discriminate.
Defined.

Lemma init_keyed : keyed init.
Proof. intros k e Hk. simpl in Hk. by rewrite lookup_empty in Hk. Qed.

Lemma handle_keyed o s :
  keyed s →
  keyed (next (handle o s))
  ∧ Forall (λ e, pid e = key_of o) (emitted (handle o s)).
Proof.
  intros Hinv. destruct o as [c a|p c|c]; simpl.
  - unfold trace_tcp_v4_connect, key_of. simpl. split.
    + intros k e. cbn [connect_tracking].
      set (tid := u32 (bpf_get_current_pid_tgid c)).
      destruct (accepts_dec BPF_HASH_DEFAULT_SIZE tid (connect_tracking s))
        as [Ha|Hn].
      * rewrite hash_update_accepted by done.
        intros [[<- <-]|[_ Hk]]%lookup_insert_Some; [done|by apply Hinv].
      * rewrite hash_update_rejected by done. apply Hinv.
    + by repeat constructor.
  - destruct (ConnectFacts.intermediate_is_branch p) as (b & e & pa & -> & _).
    unfold trace_branch, key_of, hash_lookup. simpl.
    destruct (connect_tracking s !! _) as [ev|] eqn:Hk; simpl; [|by split].
    pose proof (Hinv _ _ Hk) as Hpid. split.
    + intros k e'. cbn [connect_tracking].
      intros [[<- <-]|[_ Hk']]%lookup_insert_Some; [done|by apply Hinv].
    + by repeat constructor.
  - unfold trace_tcp_v4_connect_return, key_of, hash_lookup, hash_delete. simpl.
    destruct (connect_tracking s !! _) as [ev|] eqn:Hk; simpl; [|by split].
    pose proof (Hinv _ _ Hk) as Hpid. split.
    + intros k e'. cbn [connect_tracking].
      intros [_ Hk']%lookup_delete_Some. by apply Hinv.
    + by repeat constructor.
Qed.

(** X5. After any history started on empty maps, every record a firing
    submits carries in [pid] the thread id of the firing itself, although
    intermediate and exit handlers copy the field from the stored record. *)
Theorem connect_records_carry_firing_thread (tr : list observation)
    (o : observation) :
  Forall (λ e, pid e = key_of o) (emitted (handle o (run tr init).1)).
Proof.
  apply handle_keyed.
  apply (run_invariant keyed (λ o s H, proj1 (handle_keyed o s H))).
  apply init_keyed.
Qed.

(** X6. In the record submitted by the return probe, [error_code] is the
    traced function's return value as a signed 32-bit integer, the path is
    PATH_FAST exactly when that value is zero, and a zero value is always
    reported as CONNECT_SUCCESS. *)
Theorem connect_return_classification (c : probe_ctx) (s : state) :
  Forall (λ e, error_code e = s32 (PT_REGS_RC c)
               ∧ (path_type e = PATH_FAST ↔ error_code e = 0)
               ∧ (error_code e = 0 → branch_type e = CONNECT_SUCCESS))
         (emitted (trace_tcp_v4_connect_return c s)).
Proof.
  unfold trace_tcp_v4_connect_return, hash_lookup.
  destruct (connect_tracking s !! _) as [ev|]; simpl; [|constructor].
  constructor; [|constructor]. simpl. split; [done|].
  destruct (decide (s32 (PT_REGS_RC c) = 0)) as [Hz|Hnz].
  - by rewrite Hz.
  - split; [|done]. split; [|done].
    destruct (decide (path_type ev = 0)) as [Hp|Hp]; [|done].
    change (u8 PATH_ERROR) with 2. unfold PATH_FAST. discriminate.
Qed.

Lemma intermediate_branch_of p :
  ∃ err path, intermediate p = trace_branch (branch_of p) err path.
Proof. destruct p; simpl; by eexists _, _. Qed.

Lemma branch_of_range p : 0 ≤ branch_of p ≤ 20.
Proof. destruct p; vm_compute; split; discriminate. Qed.

(** X7. When the traced function fails, the return probe reports the branch
    of the intermediate probe that fired last for that thread: the final
    record of a failed connect names the last branch observed, not a branch
    of its own. *)
Theorem connect_failed_return_reports_last_branch (p : probe)
    (c2 c3 : probe_ctx) (s : state) (event : connect_event) :
  connect_tracking s !! u32 (bpf_get_current_pid_tgid c2) = Some event →
  u32 (bpf_get_current_pid_tgid c3) = u32 (bpf_get_current_pid_tgid c2) →
  s32 (PT_REGS_RC c3) ≠ 0 →
  ∃ e, emitted (trace_tcp_v4_connect_return c3 (next (intermediate p c2 s))) = [e]
       ∧ branch_type e = branch_of p
       ∧ error_code e = s32 (PT_REGS_RC c3).
Proof.
  intros Hk Hkey Hrc.
  destruct (intermediate_branch_of p) as (err & path & ->).
  unfold trace_tcp_v4_connect_return, trace_branch, hash_lookup.
  rewrite Hk. simpl. rewrite Hkey, lookup_insert_eq. simpl.
  eexists. split; [reflexivity|]. simpl. split; [|done].
  rewrite decide_False by done. apply u8_small.
  pose proof (branch_of_range p). lia.
Qed.

Lemma connect_failed_return_reports_last_branch_witness :
  ∃ e, emitted (trace_tcp_v4_connect_return (ProbeCtx 7 250 (-101) "curl")
                  (next (intermediate P_route_error (ProbeCtx 7 200 (-101) "curl")
                           (next (trace_tcp_v4_connect (ProbeCtx 7 100 0 "curl")
                                    (ConnectArgs None None None None) init)))))
       = [e]
       ∧ branch_type e = CONNECT_ROUTE_ERROR
       ∧ error_code e = -101.
Proof.
  destruct (connect_failed_return_reports_last_branch P_route_error
              (ProbeCtx 7 200 (-101) "curl") (ProbeCtx 7 250 (-101) "curl")
              (next (trace_tcp_v4_connect (ProbeCtx 7 100 0 "curl")
                       (ConnectArgs None None None None) init))
              (ConnectEvent 7 0 0 0 0 0 0 0 0 0 0 "curl"))
    as (e & He & Hb & Herr).
  - vm_compute. reflexivity.
  - vm_compute. reflexivity.
  - vm_compute. discriminate.
  - exists e. split; [exact He|]. split; [exact Hb|].
    rewrite Herr. vm_compute. reflexivity.
Defined.

(** X8. An intermediate probe never adds or removes a key and never writes
    [connect_start_times]: it only rewrites the record it found. *)
Theorem connect_intermediate_keeps_keys (p : probe) (c : probe_ctx)
    (s : state) :
  connect_start_times (next (intermediate p c s)) = connect_start_times s
  ∧ dom (connect_tracking (next (intermediate p c s)))
    = dom (connect_tracking s).
Proof.
  destruct (intermediate_branch_of p) as (err & path & ->).
  unfold trace_branch, hash_lookup.
  destruct (connect_tracking s !! _) as [ev|] eqn:Hk; simpl; [|done].
  split; [done|]. rewrite dom_insert_L.
  apply elem_of_dom_2 in Hk.
  apply (anti_symm (⊆)); [|apply union_subseteq_r].
  apply union_least; [by apply singleton_subseteq_l|done].
Qed.

Lemma branches_keep_keys brs : ∀ s,
  Forall (λ o, is_branch o = true) brs →
  connect_start_times (run brs s).1 = connect_start_times s
  ∧ dom (connect_tracking (run brs s).1) = dom (connect_tracking s).
Proof.
  induction brs as [|o brs IH]; intros s Hall; [done|].
  inversion Hall as [|? ? Ho Hbrs]; subst.
  rewrite run_state_cons.
  destruct (IH (next (handle o s)) Hbrs) as [-> ->].
  destruct o as [c a|p c|c]; try done. simpl.
  apply connect_intermediate_keeps_keys.
Qed.

(** X9. Intermediate observations, of this thread or of others, do not move
    the base of the latency: after an entry that found a slot in both maps
    and any number of intermediate firings, the return probe reports the
    time elapsed since that entry. *)
Theorem connect_latency_counts_from_entry (c0 : probe_ctx) (a : connect_args)
    (brs : list observation) (c3 : probe_ctx) (s : state) :
  accepts BPF_HASH_DEFAULT_SIZE (u32 (bpf_get_current_pid_tgid c0))
    (connect_start_times s) →
  accepts BPF_HASH_DEFAULT_SIZE (u32 (bpf_get_current_pid_tgid c0))
    (connect_tracking s) →
  Forall (λ o, is_branch o = true) brs →
  u32 (bpf_get_current_pid_tgid c3) = u32 (bpf_get_current_pid_tgid c0) →
  ∃ e, emitted (trace_tcp_v4_connect_return c3
                  (run brs (next (trace_tcp_v4_connect c0 a s))).1) = [e]
       ∧ latency_ns e = u64 (bpf_ktime_get_ns c3 - bpf_ktime_get_ns c0).
Proof.
  intros Ha1 Ha2 Hbrs Hkey.
  destruct (branches_keep_keys brs (next (trace_tcp_v4_connect c0 a s)) Hbrs)
    as [Hst Hdom].
  set (s2 := (run brs (next (trace_tcp_v4_connect c0 a s))).1) in *.
  set (tid := u32 (bpf_get_current_pid_tgid c0)) in *.
  assert (Hstart : connect_start_times s2 !! tid = Some (bpf_ktime_get_ns c0)).
  { rewrite Hst. simpl. by apply hash_update_lookup. }
  assert (Htrack : is_Some (connect_tracking s2 !! tid)).
  { apply elem_of_dom. rewrite Hdom. apply elem_of_dom. simpl.
    rewrite hash_update_lookup by done. by eexists. }
  destruct Htrack as [ev Hev].
  unfold trace_tcp_v4_connect_return, hash_lookup.
  rewrite Hkey. fold tid. rewrite Hev, Hstart. simpl.
  eexists. split; [reflexivity|done].
Qed.

Lemma connect_latency_counts_from_entry_witness :
  ∃ e, emitted (trace_tcp_v4_connect_return (ProbeCtx 7 400 0 "curl")
                  (run [ Branch P_route_lookup (ProbeCtx 7 150 0 "curl");
                         Branch P_port_alloc (ProbeCtx 9 200 0 "wget");
                         Branch P_regular_syn (ProbeCtx 7 300 0 "curl") ]
                     (next (trace_tcp_v4_connect (ProbeCtx 7 100 0 "curl")
                              (ConnectArgs None None None None) init))).1) = [e]
       ∧ latency_ns e = 300.
Proof.
  destruct (connect_latency_counts_from_entry (ProbeCtx 7 100 0 "curl")
              (ConnectArgs None None None None)
              [ Branch P_route_lookup (ProbeCtx 7 150 0 "curl");
                Branch P_port_alloc (ProbeCtx 9 200 0 "wget");
                Branch P_regular_syn (ProbeCtx 7 300 0 "curl") ]
              (ProbeCtx 7 400 0 "curl") init) as (e & He & Hlat).
  - right. vm_compute. reflexivity.
  - right. vm_compute. reflexivity.
  - repeat constructor.
  - vm_compute. reflexivity.
  - exists e. split; [exact He|]. rewrite Hlat. vm_compute. reflexivity.
Defined.

End ConnectMore.

(** ** The pid and tgid halves *)

Lemma u64_range x : 0 ≤ u64 x < 2 ^ 64.
Proof. unfold u64. apply Z.mod_pos_bound. lia. Qed.

(** The low and the high 32 bits of a u64 put it together again. *)
Lemma halves_recombine x :
  0 ≤ x < 2 ^ 64 → u32 x + 2 ^ 32 * u32 (Z.shiftr x 32) = x.
Proof.
  intros Hx. rewrite Z.shiftr_div_pow2 by lia. unfold u32.
  rewrite (Z.mod_small (x / 2 ^ 32)).
  - pose proof (Z.div_mod x (2 ^ 32)). lia.
  - split; [apply Z.div_pos; lia|]. apply Z.div_lt_upper_bound; lia.
Qed.

(** X10. In every record of the tcp_v4_rcv probes, of the zswap return
    probe, of the tcp_rcv_state_process branch probes and of the
    congestion-control probes, [pid] and [tgid] are the low and the high
    half of the 64-bit pid/tgid value of the firing: together they give it
    back. *)
Theorem pid_and_tgid_recombine :
  (∀ p c, Forall (λ e, Rcv.pid e + 2 ^ 32 * Rcv.tgid e
                       = bpf_get_current_pid_tgid c)
                 (emitted (Rcv.handle p c)))
  ∧ (∀ c s, Forall (λ e, Zswap.pid e + 2 ^ 32 * Zswap.tgid e
                         = bpf_get_current_pid_tgid c)
                   (emitted (Zswap.trace_zswap_store_return c s)))
  ∧ (∀ K p c s, Forall (λ e, StateProcess.pid e + 2 ^ 32 * StateProcess.tgid e
                             = bpf_get_current_pid_tgid c)
                       (emitted (StateProcess.branch K p c s)))
  ∧ (∀ o s, Forall (λ e, CongestionControl.pid e
                         + 2 ^ 32 * CongestionControl.tgid e
                         = bpf_get_current_pid_tgid
                             match o with
                             | CongestionControl.AssignCc c _
                             | CongestionControl.InitCc c _
                             | CongestionControl.SetCc c _ _
                             | CongestionControl.ReinitCc c _ _
                             | CongestionControl.CleanupCc c _ => c
                             end)
                   (emitted (CongestionControl.handle o s))).
Proof.
  split; [|split; [|split]].
  - intros p c. destruct p; simpl; (constructor; [|constructor]); simpl;
      apply halves_recombine, u64_range.
  - intros c s. unfold Zswap.trace_zswap_store_return.
    destruct (hash_lookup _ _); [|constructor].
    destruct (Zswap.IS_ERR _); constructor; [|constructor]. simpl.
    apply halves_recombine, u64_range.
  - intros K p c s. destruct p; simpl; (constructor; [|constructor]); simpl;
      apply halves_recombine, u64_range.
  - intros o s. destruct o as [c so|c so|c so n|c so ca|c so]; simpl;
      (constructor; [|constructor]); simpl;
      apply halves_recombine, u64_range.
Qed.

(** ** tcp_v4_rcv: connection fields *)

(** X11. Only the entry probe of tcp_v4_rcv reads the packet: the records of
    the eighteen branch probes carry zero addresses and ports. *)
Theorem rcv_branch_records_have_no_addresses (p : Rcv.probe) (c : probe_ctx) :
  (∀ a, p ≠ Rcv.P_tcp_v4_rcv a) →
  Forall (λ e, Rcv.saddr e = 0 ∧ Rcv.daddr e = 0
               ∧ Rcv.sport e = 0 ∧ Rcv.dport e = 0)
         (emitted (Rcv.handle p c)).
Proof.
  intros Hp. destruct p; simpl; try (by repeat constructor).
  by destruct (Hp a).
Qed.

Lemma rcv_branch_records_have_no_addresses_witness :
  Forall (λ e, Rcv.saddr e = 0 ∧ Rcv.daddr e = 0
               ∧ Rcv.sport e = 0 ∧ Rcv.dport e = 0)
         (emitted (Rcv.handle Rcv.P_no_socket (ProbeCtx 4294967297 1000 0 "nginx"))).
Proof.
  apply rcv_branch_records_have_no_addresses. intros a. discriminate.
Defined.

(** ** zswap *)

(** X12. A zswap store entry for an id not yet in [stores], on a table with
    room, followed by a return for that id that is not an error pointer,
    submits one record with the entry time as [start_ts] and the return
    time as [end_ts], and leaves [stores] exactly as it was before the
    entry. *)
Theorem zswap_entry_return_round_trip (c1 c2 : probe_ctx) (s : Zswap.state) :
  Zswap.stores s !! bpf_get_current_pid_tgid c1 = None →
  Z.of_nat (size (Zswap.stores s)) < BPF_HASH_DEFAULT_SIZE →
  bpf_get_current_pid_tgid c2 = bpf_get_current_pid_tgid c1 →
  Zswap.IS_ERR (PT_REGS_RC c2) = false →
  Zswap.trace_zswap_store_return c2 (next (Zswap.trace_zswap_store_entry c1 s)) =
    Outcome 0 s
      [ Zswap.ZswapEvent (u32 (bpf_get_current_pid_tgid c1))
          (u32 (Z.shiftr (bpf_get_current_pid_tgid c1) 32))
          (bpf_ktime_get_ns c1) (bpf_ktime_get_ns c2) ].
Proof.
  intros Hk Hroom Hid Herr.
  unfold Zswap.trace_zswap_store_return, Zswap.trace_zswap_store_entry,
    hash_lookup, hash_delete.
  simpl. rewrite Hid, Herr.
  rewrite hash_update_absent by done. rewrite lookup_insert_eq.
  rewrite delete_insert_id by done. by destruct s.
Qed.

Lemma zswap_entry_return_round_trip_witness :
  Zswap.trace_zswap_store_return (ProbeCtx 4294967303 250 1 "kswapd0")
    (next (Zswap.trace_zswap_store_entry (ProbeCtx 4294967303 100 0 "kswapd0")
             Zswap.init)) =
  Outcome 0 Zswap.init [ Zswap.ZswapEvent 7 1 100 250 ].
Proof.
  rewrite zswap_entry_return_round_trip; try (vm_compute; reflexivity).
Defined.

(** X13. A zswap return that is an error pointer leaves its record behind,
    but the next entry of that id overwrites it: whatever the table held,
    a record submitted by the following good return counts from the later
    entry. *)
Theorem zswap_later_entry_wins_after_error (c1 c2 c3 c4 : probe_ctx)
    (s : Zswap.state) :
  bpf_get_current_pid_tgid c2 = bpf_get_current_pid_tgid c1 →
  bpf_get_current_pid_tgid c3 = bpf_get_current_pid_tgid c1 →
  bpf_get_current_pid_tgid c4 = bpf_get_current_pid_tgid c1 →
  Zswap.IS_ERR (PT_REGS_RC c2) = true →
  Forall (λ e, Zswap.start_ts e = bpf_ktime_get_ns c3
               ∧ Zswap.end_ts e = bpf_ktime_get_ns c4)
    (emitted
       (Zswap.trace_zswap_store_return c4
          (next (Zswap.trace_zswap_store_entry c3
                   (next (Zswap.trace_zswap_store_return c2
                            (next (Zswap.trace_zswap_store_entry c1 s)))))))).
Proof.
  intros H2 H3 H4 Herr.
  assert (Hskip : ∀ s', next (Zswap.trace_zswap_store_return c2 s') = s').
  { intros s'. unfold Zswap.trace_zswap_store_return.
    destruct (hash_lookup _ _); [|done]. by rewrite Herr. }
  rewrite Hskip.
  replace (next (Zswap.trace_zswap_store_entry c3
                   (next (Zswap.trace_zswap_store_entry c1 s))))
    with (next (Zswap.trace_zswap_store_entry c3 s))
    by (symmetry; by apply ZswapFacts.zswap_entry_twice_same_store).
  unfold Zswap.trace_zswap_store_return, Zswap.trace_zswap_store_entry,
    hash_lookup. simpl. rewrite H4, <- H3.
  set (id := bpf_get_current_pid_tgid c3).
  destruct (accepts_dec BPF_HASH_DEFAULT_SIZE id (Zswap.stores s)) as [Ha|Hn].
  - rewrite hash_update_lookup by done.
    destruct (Zswap.IS_ERR (PT_REGS_RC c4)); constructor; [|constructor].
    by simpl.
  - rewrite hash_update_rejected by done.
    destruct (Zswap.stores s !! id) eqn:Hk.
    + exfalso. apply Hn. left. by eexists.
    + constructor.
Qed.

Lemma zswap_later_entry_wins_after_error_witness :
  Forall (λ e, Zswap.start_ts e = 300 ∧ Zswap.end_ts e = 400)
    (emitted
       (Zswap.trace_zswap_store_return (ProbeCtx 7 400 1 "kswapd0")
          (next (Zswap.trace_zswap_store_entry (ProbeCtx 7 300 0 "kswapd0")
                   (next (Zswap.trace_zswap_store_return
                            (ProbeCtx 7 250 (-12) "kswapd0")
                            (next (Zswap.trace_zswap_store_entry
                                     (ProbeCtx 7 100 0 "kswapd0")
                                     Zswap.init))))))))
  ∧ emitted
      (Zswap.trace_zswap_store_return (ProbeCtx 7 400 1 "kswapd0")
         (next (Zswap.trace_zswap_store_entry (ProbeCtx 7 300 0 "kswapd0")
                  (next (Zswap.trace_zswap_store_return
                           (ProbeCtx 7 250 (-12) "kswapd0")
                           (next (Zswap.trace_zswap_store_entry
                                    (ProbeCtx 7 100 0 "kswapd0")
                                    Zswap.init)))))))
    = [ Zswap.ZswapEvent 7 0 300 400 ].
Proof.
  split; [|vm_compute; reflexivity].
  apply (zswap_later_entry_wins_after_error (ProbeCtx 7 100 0 "kswapd0")
           (ProbeCtx 7 250 (-12) "kswapd0") (ProbeCtx 7 300 0 "kswapd0")
           (ProbeCtx 7 400 1 "kswapd0") Zswap.init);
    vm_compute; reflexivity.
Defined.

(** ** madvise *)

(** X14. In the madvise-only revision, an entry for a thread without a
    record, on a table with room, followed by a return with code 0 for that
    thread, submits exactly the record the entry built (owner tgid, entry
    time, address, length, advice) and leaves [madvise_hash] as it was
    before the entry. *)
Theorem madvise_entry_return_round_trip (c1 c2 : probe_ctx)
    (owner_tgid addr len adv : Z) (s : Madvise.state) :
  Madvise.madvise_hash s !! u32 (bpf_get_current_pid_tgid c1) = None →
  Z.of_nat (size (Madvise.madvise_hash s)) < Madvise.MADVISE_HASH_SIZE →
  u32 (bpf_get_current_pid_tgid c2) = u32 (bpf_get_current_pid_tgid c1) →
  s32 (PT_REGS_RC c2) = 0 →
  Madvise.kretprobe__do_madvise c2
    (next (Madvise.kprobe__do_madvise c1 owner_tgid addr len adv s)) =
  Outcome 0 s
    [ Madvise.MadviseOutput (u32 owner_tgid) (bpf_ktime_get_ns c1)
        (u64 addr) (u64 len) (s32 adv) ].
Proof.
  intros Hk Hroom Hkey Hrc.
  unfold Madvise.kretprobe__do_madvise, Madvise.kprobe__do_madvise,
    hash_lookup, hash_delete. simpl.
  rewrite decide_False by (intros Hn; by apply Hn).
  rewrite Hkey, hash_insert_absent by done.
  rewrite lookup_insert_eq, delete_insert_id by done. by destruct s.
Qed.

Lemma madvise_entry_return_round_trip_witness :
  Madvise.kretprobe__do_madvise (ProbeCtx 7 250 0 "app")
    (next (Madvise.kprobe__do_madvise (ProbeCtx 7 100 0 "app")
             1 4096 8192 4 Madvise.init)) =
  Outcome 0 Madvise.init [ Madvise.MadviseOutput 1 100 4096 8192 4 ].
Proof.
  rewrite madvise_entry_return_round_trip; try (vm_compute; reflexivity).
Defined.

(** X15. In the madvise-only revision a failed call leaves its record in
    [madvise_hash], and the next entry of that thread, made with [insert],
    does not replace it: the following successful return submits the
    arguments and the time of the failed call, not of the call that
    succeeded. *)
Theorem madvise_failed_call_is_reported_later (c1 c2 c3 c4 : probe_ctx)
    (tgid1 addr1 len1 adv1 tgid3 addr3 len3 adv3 : Z) (s : Madvise.state) :
  Madvise.madvise_hash s !! u32 (bpf_get_current_pid_tgid c1) = None →
  Z.of_nat (size (Madvise.madvise_hash s)) < Madvise.MADVISE_HASH_SIZE →
  u32 (bpf_get_current_pid_tgid c2) = u32 (bpf_get_current_pid_tgid c1) →
  u32 (bpf_get_current_pid_tgid c3) = u32 (bpf_get_current_pid_tgid c1) →
  u32 (bpf_get_current_pid_tgid c4) = u32 (bpf_get_current_pid_tgid c1) →
  s32 (PT_REGS_RC c2) ≠ 0 →
  s32 (PT_REGS_RC c4) = 0 →
  emitted (Madvise.kretprobe__do_madvise c2
             (next (Madvise.kprobe__do_madvise c1 tgid1 addr1 len1 adv1 s))) = []
  ∧ emitted
      (Madvise.kretprobe__do_madvise c4
         (next (Madvise.kprobe__do_madvise c3 tgid3 addr3 len3 adv3
                  (next (Madvise.kretprobe__do_madvise c2
                           (next (Madvise.kprobe__do_madvise c1
                                    tgid1 addr1 len1 adv1 s)))))))
    = [ Madvise.MadviseOutput (u32 tgid1) (bpf_ktime_get_ns c1)
          (u64 addr1) (u64 len1) (s32 adv1) ].
Proof.
  intros Hk Hroom H2 H3 H4 Hfail Hok.
  assert (Hskip : ∀ s', Madvise.kretprobe__do_madvise c2 s' = Outcome 0 s' []).
  { intros s'. unfold Madvise.kretprobe__do_madvise. by rewrite decide_True. }
  rewrite Hskip. split; [done|]. simpl.
  unfold Madvise.kretprobe__do_madvise, Madvise.kprobe__do_madvise,
    hash_lookup, hash_delete. simpl.
  rewrite decide_False by (intros Hn; by apply Hn).
  rewrite H4, H3, (hash_insert_absent _ _ _ (Madvise.madvise_hash s)) by done.
  rewrite (hash_insert_present _ _ _ _ _ (lookup_insert_eq _ _ _)).
  by rewrite lookup_insert_eq.
Qed.

Lemma madvise_failed_call_is_reported_later_witness :
  emitted
    (Madvise.kretprobe__do_madvise (ProbeCtx 7 400 0 "app")
       (next (Madvise.kprobe__do_madvise (ProbeCtx 7 300 0 "app") 1 65536 512 8
                (next (Madvise.kretprobe__do_madvise (ProbeCtx 7 250 (-22) "app")
                         (next (Madvise.kprobe__do_madvise (ProbeCtx 7 100 0 "app")
                                  1 4096 8192 4 Madvise.init)))))))
  = [ Madvise.MadviseOutput 1 100 4096 8192 4 ].
Proof.
  apply (madvise_failed_call_is_reported_later (ProbeCtx 7 100 0 "app")
           (ProbeCtx 7 250 (-22) "app") (ProbeCtx 7 300 0 "app")
           (ProbeCtx 7 400 0 "app") 1 4096 8192 4 1 65536 512 8 Madvise.init);
    vm_compute; (reflexivity || discriminate).
Defined.

Module MadviseMunmapMore.
Import MadviseMunmap MadviseMunmapExt.

Lemma handle_never_emits o s : emitted (handle o s) = [].
Proof.
  destruct o; simpl; try done.
  - apply MadviseMunmapFacts.kretprobe__do_madvise_never_emits.
  - unfold kretprobe__do_vmi_align_munmap.
    destruct (hash_lookup _ _); [|done]. by case_decide.
Qed.

(** X16. In the revision with the madvise and munmap probes, no sequence of
    firings ever submits a record, from any state of the tables: both
    return handlers leave through the [return 0] that follows their
    unbraced [if], before reaching [perf_submit]. *)
Theorem madvise_munmap_never_submit (tr : list observation) : ∀ s,
  records tr s = [].
Proof.
  induction tr as [|o tr IH]; intros s; [done|].
  simpl. by rewrite handle_never_emits, IH.
Qed.

(** X17. In that revision a record in [madvise_hash] outlives every later
    firing except a failed madvise return of its own thread: entries of the
    thread do not replace it, successful returns do not remove it, and the
    munmap probes use the other table. *)
Theorem madvise_record_outlives_successful_calls (tr : list observation) :
  ∀ (s : state) (k : Z) (data : madvise_output),
  madvise_hash s !! k = Some data →
  Forall (λ o, match o with
               | MadviseReturn c =>
                   u32 (bpf_get_current_pid_tgid c) = k →
                   s32 (PT_REGS_RC c) = 0
               | _ => True
               end) tr →
  madvise_hash (run tr s) !! k = Some data.
Proof.
  induction tr as [|o tr IH]; intros s k data Hk Hall; [done|].
  inversion Hall as [|? ? Ho Htr]; subst. simpl. apply IH; [|done].
  destruct o as [c t a l adv|c|c t st en|c]; simpl.
  - destruct (decide (u32 (bpf_get_current_pid_tgid c) = k)) as [<-|Hne].
    + by erewrite hash_insert_present.
    + by rewrite hash_insert_lookup_ne.
  - unfold kretprobe__do_madvise. case_decide as Hrc; [|done]. simpl.
    unfold hash_delete. rewrite lookup_delete_ne; [done|].
    intros Heq. by apply Hrc, Ho.
  - done.
  - unfold kretprobe__do_vmi_align_munmap.
    destruct (hash_lookup _ _); [|done]. by case_decide.
Qed.

Lemma madvise_record_outlives_successful_calls_witness :
  ts_ns <$>
    (madvise_hash
       (run [ MadviseReturn (ProbeCtx 7 250 0 "app");
              MadviseEntry (ProbeCtx 7 300 0 "app") 1 65536 512 8;
              MunmapEntry (ProbeCtx 7 350 0 "app") 1 0 4096;
              MadviseReturn (ProbeCtx 9 400 (-22) "other") ]
          (next (kprobe__do_madvise (ProbeCtx 7 100 0 "app") 1 4096 8192 4 init)))
     !! 7) = Some 100.
Proof.
  rewrite (madvise_record_outlives_successful_calls _ _ 7
             (MadviseOutput 1 100 4096 8192 4)).
  - reflexivity.
  - vm_compute. reflexivity.
  - repeat constructor; vm_compute; (reflexivity || discriminate).
Defined.

End MadviseMunmapMore.

(** ** rss_stat *)

(** X18. The raw tracepoint followed by the tracepoint of the same thread,
    on a table with room and no record for the thread, submits one record
    with the owner's pid and tgid read at the raw tracepoint and the
    member, size in pages and time of the tracepoint, and leaves
    [rss_stat_hash] as it was. *)
Theorem rss_stat_pair_round_trip (c1 c2 : probe_ctx)
    (owner_pid owner_tgid arg_member arg_size : Z) (s : RssStat.state) :
  RssStat.rss_stat_hash s !! u32 (bpf_get_current_pid_tgid c1) = None →
  Z.of_nat (size (RssStat.rss_stat_hash s)) < RssStat.RSS_STAT_HASH_SIZE →
  u32 (bpf_get_current_pid_tgid c2) = u32 (bpf_get_current_pid_tgid c1) →
  RssStat.tracepoint__kmem__rss_stat c2 arg_member arg_size
    (next (RssStat.raw_tracepoint__rss_stat c1 owner_pid owner_tgid s)) =
  Outcome 0 s
    [ RssStat.RssStatOutput (u32 owner_pid) (u32 owner_tgid)
        (bpf_ktime_get_ns c2) (s32 arg_member)
        (u64 (Z.shiftr arg_size RssStat.PAGE_SZ)) ].
Proof.
  intros Hk Hroom Hkey.
  unfold RssStat.tracepoint__kmem__rss_stat, RssStat.raw_tracepoint__rss_stat,
    hash_lookup, hash_delete. simpl.
  rewrite Hkey, hash_insert_absent by done.
  rewrite lookup_insert_eq, delete_insert_id by done. by destruct s.
Qed.

Lemma rss_stat_pair_round_trip_witness :
  RssStat.tracepoint__kmem__rss_stat (ProbeCtx 7 250 0 "app") 1 8192
    (next (RssStat.raw_tracepoint__rss_stat (ProbeCtx 7 100 0 "app") 42 40
             RssStat.init)) =
  Outcome 0 RssStat.init [ RssStat.RssStatOutput 42 40 250 1 2 ].
Proof.
  rewrite rss_stat_pair_round_trip; try (vm_compute; reflexivity).
Defined.

(** X19. For a non-negative size the reported [counter_value] is the size in
    whole 4096-byte pages, rounded down. *)
Theorem rss_stat_counter_is_pages (c : probe_ctx) (arg_member arg_size : Z)
    (s : RssStat.state) :
  0 ≤ arg_size < 2 ^ 63 →
  Forall (λ e, 4096 * RssStat.counter_value e ≤ arg_size
               < 4096 * (RssStat.counter_value e + 1))
         (emitted (RssStat.tracepoint__kmem__rss_stat c arg_member arg_size s)).
Proof.
  intros Hsz. unfold RssStat.tracepoint__kmem__rss_stat.
  destruct (hash_lookup _ _); constructor; [|constructor]. simpl.
  unfold RssStat.PAGE_SZ. rewrite Z.shiftr_div_pow2 by lia.
  change (2 ^ 12) with 4096.
  assert (0 ≤ arg_size / 4096 < 2 ^ 64).
  { split; [apply Z.div_pos; lia|]. apply Z.div_lt_upper_bound; lia. }
  rewrite u64_small by done.
  pose proof (Z.div_mod arg_size 4096).
  pose proof (Z.mod_pos_bound arg_size 4096). lia.
Qed.

Lemma rss_stat_counter_is_pages_witness :
  Forall (λ e, 4096 * RssStat.counter_value e ≤ 10000
               < 4096 * (RssStat.counter_value e + 1))
         (emitted (RssStat.tracepoint__kmem__rss_stat (ProbeCtx 7 250 0 "app")
                     1 10000
                     (RssStat.State {[ 7 := RssStat.RssStatOutput 42 40 0 0 0 ]}))).
Proof. apply rss_stat_counter_is_pages. lia. Defined.

(** ** Page faults *)

(** X20. A page-fault entry for a thread without a record, on a table with
    room, followed by a return of that thread without VM_FAULT_ERROR,
    submits one record (pid of the thread, tgid read at the return, entry
    time in microseconds, faulting address, write and exec flags of the
    entry, major flag of the return value) and leaves [fault_entry] as it
    was before the entry. *)
Theorem page_fault_entry_return_round_trip (W I : Z) (c1 c2 : probe_ctx)
    (address flags : Z) (s : PageFault.state) :
  PageFault.fault_entry s !! u32 (bpf_get_current_pid_tgid c1) = None →
  Z.of_nat (size (PageFault.fault_entry s)) < PageFault.FAULT_ENTRY_SIZE →
  u32 (bpf_get_current_pid_tgid c2) = u32 (bpf_get_current_pid_tgid c1) →
  Z.land (PT_REGS_RC c2) PageFault.VM_FAULT_ERROR = 0 →
  PageFault.trace_handle_mm_fault_return W I c2
    (next (PageFault.trace_handle_mm_fault_entry c1 address flags s)) =
  Outcome 0 s
    [ PageFault.PageFaultEvent
        (u32 (bpf_get_current_pid_tgid c1))
        (u32 (Z.shiftr (bpf_get_current_pid_tgid c2) 32))
        (bpf_ktime_get_ns c1 / 1000)
        (u64 address)
        0
        (PageFault.flag_set (PT_REGS_RC c2) PageFault.VM_FAULT_MAJOR)
        (PageFault.flag_set (u32 flags) W)
        (PageFault.flag_set (u32 flags) I)
        (bpf_get_current_comm c2) ].
Proof.
  intros Hk Hroom Hkey Hok.
  unfold PageFault.trace_handle_mm_fault_return,
    PageFault.trace_handle_mm_fault_entry, hash_lookup, hash_delete. simpl.
  rewrite Hkey, hash_update_absent by done.
  rewrite lookup_insert_eq, delete_insert_id by done.
  rewrite decide_False by (intros Hn; by apply Hn). simpl. by destruct s.
Qed.

Lemma page_fault_entry_return_round_trip_witness :
  PageFault.trace_handle_mm_fault_return 1 256 (ProbeCtx 4294967303 9000 512 "sh")
    (next (PageFault.trace_handle_mm_fault_entry (ProbeCtx 4294967303 5000 0 "sh")
             4096 1 PageFault.init)) =
  Outcome 0 PageFault.init [ PageFault.PageFaultEvent 7 1 5 4096 0 1 1 0 "sh" ].
Proof.
  rewrite page_fault_entry_return_round_trip; try (vm_compute; reflexivity).
Defined.

(** Truncating to 32 bits does not disturb a test of low bits. *)
Lemma land_u32_low x mask :
  Z.land (Z.ones 32) mask = mask → Z.land (u32 x) mask = Z.land x mask.
Proof.
  intros Hm. unfold u32. rewrite <- Z.land_ones by lia.
  by rewrite <- Z.land_assoc, Hm.
Qed.

(** X21. In the record of the page_fault_kernel tracepoint the three flags
    agree with the stored 32-bit [error_code]: [is_major] is set exactly
    when bit 0 of the code is clear, [is_write] when bit 1 is set,
    [is_exec] when bit 4 is set.  The kprobe on handle_mm_fault never
    reports a major fault or an error code. *)
Theorem page_fault_flags_match_error_code :
  (∀ c arg_address arg_error_code,
     Forall (λ e,
         PageFaultProbe.is_major e =
           (if decide (Z.land (PageFaultProbe.error_code e) 1 = 0) then 1 else 0)
         ∧ PageFaultProbe.is_write e =
             PageFault.flag_set (PageFaultProbe.error_code e) 2
         ∧ PageFaultProbe.is_exec e =
             PageFault.flag_set (PageFaultProbe.error_code e) 16)
       (emitted (PageFaultProbe.tracepoint__exceptions__page_fault_kernel
                   c arg_address arg_error_code)))
  ∧ (∀ W I c address flags,
       Forall (λ e, PageFaultProbe.is_major e = 0
                    ∧ PageFaultProbe.error_code e = 0)
         (emitted (PageFaultProbe.kprobe__handle_mm_fault W I c address flags))).
Proof.
  split.
  - intros c a code. constructor; [|constructor]. simpl.
    unfold PageFault.flag_set. by rewrite !land_u32_low.
  - intros. by repeat constructor.
Qed.

(** ** Counter increments under every schedule *)


Module CounterMore.
Import Counter CounterExt.

Lemma finished_count_replace ls : ∀ i l l',
  ls !! i = Some l →
  (finished_count (<[i:=l']> ls) + (if is_finished l then 1 else 0)
   = finished_count ls + (if is_finished l' then 1 else 0))%nat.
Proof.
  induction ls as [|x ls IH]; intros i l l' Hi; [done|].
  destruct i as [|i]; simpl in *.
  - injection Hi as Hx. subst x. rewrite !CounterFacts.finished_count_cons. lia.
  - rewrite !CounterFacts.finished_count_cons.
    pose proof (IH i l l' Hi). lia.
Qed.

Lemma finished_count_le ls : (finished_count ls ≤ length ls)%nat.
Proof.
  induction ls as [|x ls IH]; [done|].
  rewrite CounterFacts.finished_count_cons. simpl.
  destruct (is_finished x); lia.
Qed.

Lemma plain_step_inv cell0 i m :
  0 ≤ cell0 → cell0 + Z.of_nat (length (locals m)) < 2 ^ 64 →
  plain_inv cell0 m → plain_inv cell0 (step plain_step i m).
Proof.
  intros H0 Hlen (Hsh & Hpos & Hls). unfold step.
  destruct (locals m !! i) as [l|] eqn:Hi; [|done].
  pose proof (finished_count_le (locals m)) as Hle.
  destruct l as [|r|]; simpl.
  - pose proof (finished_count_replace _ _ _ (Loaded (shared m)) Hi) as Hc.
    simpl in Hc. unfold plain_inv. simpl.
    replace (finished_count (<[i:=Loaded (shared m)]> (locals m)))
      with (finished_count (locals m)) by lia.
    split; [done|]. split; [done|]. by apply Forall_insert.
  - pose proof (finished_count_replace _ _ _ Finished Hi) as Hc. simpl in Hc.
    pose proof (finished_count_le (<[i:=Finished]> (locals m))) as Hle'.
    rewrite length_insert in Hle'.
    assert (Hr : cell0 ≤ r ≤ cell0 + Z.of_nat (finished_count (locals m))).
    { rewrite Forall_forall in Hls.
      apply (Hls (Loaded r)). by eapply list_elem_of_lookup_2. }
    unfold plain_inv. simpl.
    replace (finished_count (<[i:=Finished]> (locals m)))
      with (S (finished_count (locals m))) by lia.
    rewrite u64_small by lia.
    split; [lia|]. split; [lia|].
    apply Forall_insert; [|done].
    eapply Forall_impl; [exact Hls|]. intros [|r'|]; simpl; lia.
  - rewrite list_insert_id by done. done.
Qed.

Lemma run_plain_inv cell0 sched : ∀ m,
  0 ≤ cell0 → cell0 + Z.of_nat (length (locals m)) < 2 ^ 64 →
  plain_inv cell0 m → plain_inv cell0 (run_schedule plain_step sched m).
Proof.
  induction sched as [|i sched IH]; intros m H0 Hlen Hinv; [done|].
  simpl. apply IH; [done| |by apply plain_step_inv].
  by rewrite CounterFacts.step_length.
Qed.

Lemma start_plain_inv cell0 n : plain_inv cell0 (start cell0 n).
Proof.
  assert (Hz : finished_count (replicate n Ready) = 0%nat).
  { induction n as [|n IH]; [done|]. simpl.
    by rewrite CounterFacts.finished_count_cons. }
  unfold plain_inv. simpl. rewrite Hz. simpl.
  split; [lia|]. split; [lia|]. by apply Forall_replicate.
Qed.

(** X23. With the plain increment that the entry handler of
    tcp_v4_connect.bpf.c applies to [branch_stats[0]] (the key is 0 there,
    so the guarding lookup succeeds and every firing increments), updates
    can be lost but never invented: once all [n] contexts (at least one)
    have finished, under every schedule, the counter has advanced by at
    least 1 and at most [n]. *)
Theorem plain_increments_between_one_and_n (cell0 : Z) (n : nat)
    (sched : list nat) :
  0 ≤ cell0 → cell0 + Z.of_nat n < 2 ^ 64 → (0 < n)%nat →
  all_finished (run_schedule plain_step sched (start cell0 n)) →
  cell0 + 1 ≤ shared (run_schedule plain_step sched (start cell0 n))
  ≤ cell0 + Z.of_nat n.
Proof.
  intros H0 Hn Hpos Hfin.
  destruct (run_plain_inv cell0 sched (start cell0 n)) as (Hsh & Hgt & _);
    [done|by simpl; rewrite length_replicate|apply start_plain_inv|].
  rewrite CounterFacts.finished_count_all in Hsh, Hgt by done.
  rewrite CounterFacts.run_schedule_length in Hsh, Hgt. simpl in Hsh, Hgt.
  rewrite length_replicate in Hsh, Hgt. lia.
Qed.

Lemma plain_increments_between_one_and_n_witness :
  5 + 1 ≤ shared (run_schedule plain_step [0; 1; 2; 0; 1; 2]%nat (start 5 3))
  ≤ 5 + Z.of_nat 3.
Proof.
  apply plain_increments_between_one_and_n; [lia|vm_compute; reflexivity|lia|].
  repeat constructor.
Defined.

Lemma run_schedule_app f sched1 sched2 m :
  run_schedule f (sched1 ++ sched2) m =
  run_schedule f sched2 (run_schedule f sched1 m).
Proof. unfold run_schedule. apply fold_left_app. Qed.

Lemma step_in_the_middle f k l1 x l2 cell :
  length l1 = k →
  step f k {| shared := cell; locals := l1 ++ x :: l2 |}
  = {| shared := (f cell x).1; locals := l1 ++ (f cell x).2 :: l2 |}.
Proof.
  intros Hlen. unfold step. simpl.
  rewrite list_lookup_middle by done.
  destruct (f cell x) as [cell' x']. simpl. f_equal.
  rewrite insert_app_r_alt by lia.
  by rewrite Hlen, Nat.sub_diag.
Qed.

Lemma one_after_another_from n : ∀ k cell,
  run_schedule plain_step (flat_map (λ i, [i; i]) (seq k n))
    {| shared := cell;
       locals := replicate k Finished ++ replicate n Ready |}
  = {| shared := (if n is O then cell else u64 (cell + Z.of_nat n));
       locals := replicate (k + n) Finished |}.
Proof.
  induction n as [|n IH]; intros k cell.
  - simpl. by rewrite app_nil_r, Nat.add_0_r.
  - simpl seq. simpl flat_map.
    change (k :: k :: flat_map (λ i, [i; i]) (seq (S k) n))
      with ([k; k] ++ flat_map (λ i, [i; i]) (seq (S k) n)).
    rewrite run_schedule_app.
    assert (Hfirst :
      run_schedule plain_step [k; k]
        {| shared := cell;
           locals := replicate k Finished ++ replicate (S n) Ready |}
      = {| shared := u64 (cell + 1);
           locals := replicate (S k) Finished ++ replicate n Ready |}).
    { simpl.
      rewrite (step_in_the_middle plain_step k) by apply length_replicate.
      simpl.
      rewrite (step_in_the_middle plain_step k) by apply length_replicate.
      simpl. f_equal.
      change (Finished :: replicate k Finished ++ replicate n Ready)
        with (replicate (S k) Finished ++ replicate n Ready).
      rewrite (replicate_S_end k). by rewrite <- app_assoc. }
    rewrite Hfirst, (IH (S k) (u64 (cell + 1))).
    f_equal.
    + destruct n as [|n]; [done|].
      unfold u64. rewrite Zplus_mod_idemp_l. f_equal. lia.
    + f_equal. lia.
Qed.

(** X24. When the contexts do not interleave (each runs its load and its
    store before the next one starts) the plain increment counts exactly:
    [n] contexts advance the counter by [n]. *)
Theorem plain_increments_exact_without_interleaving (cell : Z) (n : nat) :
  run_schedule plain_step (one_after_another n) (start cell n)
  = {| shared := (if n is O then cell else u64 (cell + Z.of_nat n));
       locals := replicate n Finished |}.
Proof. apply (one_after_another_from n 0 cell). Qed.

End CounterMore.

(** ** tcp_rcv_state_process: what the counters count *)

Module StateProcessMore.
Import StateProcess.

Lemma get_fetch_and_add f g st :
  get f (fetch_and_add_1 g st) =
    if stat_field_eqb g f then u64 (get f st + 1) else get f st.
Proof. destruct f, g; reflexivity. Qed.

Lemma occurrences_cons P o tr :
  occurrences P (o :: tr) = (if P o then 1 else 0) + occurrences P tr.
Proof.
  unfold occurrences. rewrite filter_cons.
  destruct (P o); simpl; try case_decide; try done; lia.
Qed.

Lemma occurrences_nonneg P tr : 0 ≤ occurrences P tr.
Proof. unfold occurrences. lia. Qed.

Lemma u64_add_u64 a b : u64 (u64 a + b) = u64 (a + b).
Proof. unfold u64. by rewrite Zplus_mod_idemp_l. Qed.

(** One firing on an initialised [stats_map] advances exactly the counter
    of its probe. *)
Lemma handle_counts K o s st :
  stats_map s !! 0 = Some st →
  ∃ g, stats_map (next (handle K o s)) !! 0 = Some (fetch_and_add_1 g st)
       ∧ ∀ f, counts f o = stat_field_eqb g f.
Proof.
  intros Hk. destruct o as [c sk|p c]; simpl.
  - exists F_total_calls. split; [|done].
    unfold trace_tcp_rcv_state_process, lookup_or_try_init.
    rewrite Hk. simpl. apply lookup_insert_eq.
  - exists (field_of p). split; [|done].
    destruct p; simpl; unfold count_and_emit, hash_lookup; simpl;
      rewrite Hk; simpl; apply lookup_insert_eq.
Qed.

Lemma run_counts K tr : ∀ s st,
  stats_map s !! 0 = Some st →
  (∀ f, 0 ≤ get f st < 2 ^ 64) →
  ∃ st', stats_map (run K tr s) !! 0 = Some st'
         ∧ ∀ f, get f st' = u64 (get f st + occurrences (counts f) tr).
Proof.
  induction tr as [|o tr IH]; intros s st Hk Hrange.
  - exists st. split; [done|]. intros f.
    unfold occurrences. simpl. rewrite Z.add_0_r.
    symmetry. apply u64_small, Hrange.
  - destruct (handle_counts K o s st Hk) as (g & Hnext & Hg).
    destruct (IH (next (handle K o s)) (fetch_and_add_1 g st) Hnext)
      as (st' & Hst' & Hget).
    { intros f. rewrite get_fetch_and_add.
      destruct (stat_field_eqb g f); [apply u64_range|apply Hrange]. }
    exists st'. split; [exact Hst'|]. intros f.
    rewrite Hget, get_fetch_and_add, occurrences_cons, Hg.
    destruct (stat_field_eqb g f).
    + rewrite u64_add_u64. f_equal. lia.
    + f_equal.
Qed.

(** X25. Once the main probe has fired, every counter of [stats_map[0]]
    holds (modulo 2^64) the number of firings of its own probe since then,
    the first firing of the main probe included: [total_calls] counts the
    main probe, each other member its branch probe, and no firing is
    counted twice or under another member. *)
Theorem state_process_counters_count_firings (K : tcp_states) (c : probe_ctx)
    (sk_state : option Z) (tr : list observation) :
  ∃ st, stats_map (run K (Main c sk_state :: tr) init) !! 0 = Some st
        ∧ ∀ f, get f st
               = u64 (occurrences (counts f) (Main c sk_state :: tr)).
Proof.
  destruct (run_counts K tr
              (next (handle K (Main c sk_state) init))
              (fetch_and_add_1 F_total_calls zero_stats))
    as (st & Hst & Hget).
  - reflexivity.
  - intros f. destruct f; vm_compute; split; (discriminate || reflexivity).
  - exists st. split; [exact Hst|]. intros f.
    rewrite Hget, occurrences_cons, get_fetch_and_add. simpl counts.
    destruct f; simpl; f_equal.
Qed.

Lemma branch_emits_one K p c s : length (emitted (branch K p c s)) = 1%nat.
Proof. by destruct p. Qed.

Lemma branch_uninitialised K p c s :
  stats_map s !! 0 = None → next (branch K p c s) = s.
Proof.
  intros Hk. destruct p; simpl; unfold count_and_emit, hash_lookup; simpl;
    rewrite Hk; by destruct s.
Qed.

(** X26. A branch probe always submits its event, but counts only when
    [stats_map[0]] exists, and only the main probe creates that entry:
    branch firings that come before the first firing of the main probe
    leave both maps unchanged, so they are never counted. *)
Theorem state_process_early_branches_not_counted (K : tcp_states)
    (tr : list observation) (s : state) :
  stats_map s !! 0 = None →
  Forall (λ o, is_main o = false) tr →
  run K tr s = s
  ∧ Forall (λ o, length (emitted (handle K o s)) = 1%nat) tr.
Proof.
  intros Hk Hall. split.
  - induction Hall as [|o tr Ho _ IH]; [done|].
    destruct o as [c sk|p c]; [done|]. simpl.
    by rewrite branch_uninitialised.
  - eapply Forall_impl; [exact Hall|].
    intros [c sk|p c] Ho; [done|]. apply branch_emits_one.
Qed.

Lemma state_process_early_branches_not_counted_witness :
  run (TcpStates 1 2 3 4 5 6 9 10)
    [ Branch P_reset (ProbeCtx 7 100 0 "nginx");
      Branch P_listen_state (ProbeCtx 7 200 0 "nginx") ] init = init.
Proof.
  apply state_process_early_branches_not_counted; [reflexivity|].
  repeat constructor.
Defined.

Lemma byte_keys_size (m : gmap Z Z) :
  byte_keys m → Z.of_nat (size m) ≤ 256.
Proof.
  intros Hb. rewrite <- size_dom.
  assert (Hsub : dom m ⊆ (list_to_set (seqZ 0 256) : gset Z)).
  { intros k Hk. apply elem_of_dom in Hk as [v Hv].
    apply elem_of_list_to_set, elem_of_seqZ. apply Hb in Hv. lia. }
  apply subseteq_size in Hsub.
  rewrite size_list_to_set in Hsub by apply NoDup_seqZ.
  rewrite length_seqZ in Hsub. lia.
Qed.

Lemma get_sk_state_byte sk_state : 0 ≤ get_sk_state sk_state < 256.
Proof.
  unfold get_sk_state, bpf_probe_read. destruct sk_state; [|lia].
  apply Z.mod_pos_bound. lia.
Qed.

(** The main probe always finds room for the state it read. *)
Lemma main_distribution c sk_state s :
  byte_keys (state_distribution s) →
  state_distribution (next (trace_tcp_rcv_state_process c sk_state s)) =
    <[get_sk_state sk_state :=
        u64 (default 0 (state_distribution s !! get_sk_state sk_state) + 1)]>
      (state_distribution s).
Proof.
  intros Hb. unfold trace_tcp_rcv_state_process, hash_lookup.
  destruct (lookup_or_try_init _ _ _ _) as [m1 stats]. simpl.
  destruct (state_distribution s !! get_sk_state sk_state) eqn:Hk; [done|].
  simpl. apply hash_update_absent; [done|].
  pose proof (byte_keys_size _ Hb). unfold BPF_HASH_DEFAULT_SIZE. lia.
Qed.

Lemma run_distribution K tr : ∀ s v,
  byte_keys (state_distribution s) →
  state_distribution (run K tr s) !! v =
    if decide (occurrences (reads_state v) tr = 0)
    then state_distribution s !! v
    else Some (u64 (default 0 (state_distribution s !! v)
                    + occurrences (reads_state v) tr)).
Proof.
  induction tr as [|o tr IH]; intros s v Hb; [done|].
  change (run K (o :: tr) s) with (run K tr (next (handle K o s))).
  rewrite occurrences_cons.
  pose proof (occurrences_nonneg (reads_state v) tr) as Hnn.
  destruct o as [c sk|p c]; cbn [handle reads_state].
  - rewrite IH.
    + rewrite main_distribution by done.
      destruct (decide (get_sk_state sk = v)) as [<-|Hne].
      * rewrite bool_decide_eq_true_2 by done.
        rewrite lookup_insert_eq. cbn [default].
        rewrite (decide_False (P := 1 + _ = 0)) by lia.
        rewrite Z.add_assoc. case_decide as Hz.
        -- by rewrite Hz, Z.add_0_r.
        -- unfold id. by rewrite u64_add_u64.
      * rewrite bool_decide_eq_false_2 by done.
        rewrite lookup_insert_ne by done.
        rewrite Z.add_0_l. done.
    + rewrite main_distribution by done.
      intros k x [[<- _]|[_ Hk]]%lookup_insert_Some;
        [apply get_sk_state_byte|by eapply Hb].
  - assert (Hs : state_distribution (next (branch K p c s))
                 = state_distribution s) by (by destruct p).
    rewrite IH by (by rewrite Hs).
    rewrite Hs, Z.add_0_l. done.
Qed.

(** X27. After any sequence of firings started on empty maps,
    [state_distribution] holds for every socket state the number of firings
    of the main probe that read that state (modulo 2^64), and no entry for
    a state that was never read: the table, keyed by a byte, never runs out
    of room, so no firing goes uncounted. *)
Theorem state_distribution_counts_states (K : tcp_states)
    (tr : list observation) (v : Z) :
  state_distribution (run K tr init) !! v =
    if decide (occurrences (reads_state v) tr = 0) then None
    else Some (u64 (occurrences (reads_state v) tr)).
Proof.
  rewrite run_distribution.
  - simpl. rewrite lookup_empty. done.
  - intros k x Hk. simpl in Hk. by rewrite lookup_empty in Hk.
Qed.

End StateProcessMore.

(** ** tcp_congestion_control: the socket table *)

Module CongestionControlMore.
Import CongestionControl.

Lemma substring_length m : ∀ str,
  (String.length (String.substring 0 m str) ≤ m)%nat.
Proof.
  induction m as [|m IH]; intros str; destruct str as [|ch str]; simpl;
    try lia.
  pose proof (IH str). lia.
Qed.

Lemma read_str_short src :
  (String.length (bpf_probe_read_str TCP_CA_NAME_MAX src) < TCP_CA_NAME_MAX)%nat.
Proof.
  unfold bpf_probe_read_str, TCP_CA_NAME_MAX. destruct src as [str|].
  - pose proof (substring_length 15 str). simpl in *. lia.
  - simpl. lia.
Qed.

Lemma read_ca_name_short ops :
  (String.length (read_ca_name ops) < TCP_CA_NAME_MAX)%nat.
Proof.
  unfold read_ca_name. destruct ops; [apply read_str_short|].
  unfold TCP_CA_NAME_MAX. simpl. lia.
Qed.

Lemma handle_tracked_by_assign o s :
  tracked_by_assign s → tracked_by_assign (next (handle o s)).
Proof.
  intros Hinv. destruct o as [c so|c so|c so n|c so ca|c so]; simpl;
    try done.
  - intros k e. cbn [socket_tracking].
    destruct (accepts_dec BPF_HASH_DEFAULT_SIZE (sk so) (socket_tracking s))
      as [Ha|Hn].
    + rewrite hash_update_accepted by done.
      intros [[_ <-]|[_ Hk]]%lookup_insert_Some; [|by eapply Hinv].
      split; [done|]. apply read_ca_name_short.
    + rewrite hash_update_rejected by done. apply Hinv.
  - intros k e. cbn [socket_tracking]. unfold hash_delete.
    intros [_ Hk]%lookup_delete_Some. by eapply Hinv.
Qed.

Lemma cc_handle_size o s :
  Z.of_nat (size (socket_tracking s)) ≤ BPF_HASH_DEFAULT_SIZE →
  Z.of_nat (size (socket_tracking (next (handle o s)))) ≤ BPF_HASH_DEFAULT_SIZE.
Proof.
  intros Hle. destruct o; simpl; try done.
  - by apply hash_update_size.
  - by apply hash_delete_size.
Qed.

(** X28. After any sequence of firings started on an empty table, every
    record kept in [socket_tracking] was written by the assign probe (its
    event type is EVENT_ASSIGN_CC), its algorithm name fits the 16-byte
    buffer with its terminator, and the table holds at most 10240
    sockets. *)
Theorem socket_tracking_holds_assign_records (tr : list observation) :
  tracked_by_assign (run tr init)
  ∧ Z.of_nat (size (socket_tracking (run tr init))) ≤ 10240.
Proof.
  assert (Hgen : ∀ s,
    tracked_by_assign s ∧ Z.of_nat (size (socket_tracking s)) ≤ 10240 →
    tracked_by_assign (run tr s)
    ∧ Z.of_nat (size (socket_tracking (run tr s))) ≤ 10240).
  { induction tr as [|o tr IH]; intros s [Hinv Hsz]; [done|].
    simpl. apply IH. split.
    - by apply handle_tracked_by_assign.
    - by apply cc_handle_size. }
  apply Hgen. split.
  - intros k e Hk. simpl in Hk. by rewrite lookup_empty in Hk.
  - simpl. by rewrite map_size_empty.
Qed.

Lemma run_app tr1 tr2 s : run (tr1 ++ tr2) s = run tr2 (run tr1 s).
Proof. unfold run. apply fold_left_app. Qed.

Lemma others_leave_table mid : ∀ s,
  Forall (λ o, match o with
               | InitCc _ _ | SetCc _ _ _ | ReinitCc _ _ _ => True
               | _ => False
               end) mid →
  run mid s = s.
Proof.
  induction mid as [|o mid IH]; intros s Hall; [done|].
  inversion Hall as [|? ? Ho Hmid]; subst. simpl.
  destruct o; try done; simpl; by apply IH.
Qed.

(** X29. Only the assign and the cleanup probe write [socket_tracking]: an
    assign of a socket that is not tracked, on a table with room, then any
    number of init, set and reinit firings on any sockets, then the cleanup
    of that socket, leave the table exactly as it was before the assign. *)
Theorem socket_tracking_assign_cleanup_round_trip (c1 c2 : probe_ctx)
    (so1 so2 : sock) (mid : list observation) (s : state) :
  socket_tracking s !! sk so1 = None →
  Z.of_nat (size (socket_tracking s)) < BPF_HASH_DEFAULT_SIZE →
  sk so2 = sk so1 →
  Forall (λ o, match o with
               | InitCc _ _ | SetCc _ _ _ | ReinitCc _ _ _ => True
               | _ => False
               end) mid →
  socket_tracking (run [AssignCc c1 so1] s) !! sk so1
    = Some (new_event c1 EVENT_ASSIGN_CC (read_ca_name (icsk_ca_ops_name so1)) so1)
  ∧ run (AssignCc c1 so1 :: mid ++ [CleanupCc c2 so2]) s = s.
Proof.
  intros Hk Hroom Hsk Hmid. split.
  - simpl. rewrite hash_update_absent by done. apply lookup_insert_eq.
  - change (AssignCc c1 so1 :: mid ++ [CleanupCc c2 so2])
      with ([AssignCc c1 so1] ++ mid ++ [CleanupCc c2 so2]).
    rewrite !run_app, (others_leave_table mid) by done.
    simpl. unfold trace_cleanup_cc, trace_assign_cc, hash_delete. simpl.
    rewrite Hsk, hash_update_absent by done.
    rewrite delete_insert_id by done. by destruct s.
Qed.

Lemma socket_tracking_assign_cleanup_round_trip_witness :
  run [ AssignCc (ProbeCtx 7 100 0 "iperf3")
          (Sock 4096 (Some 1) (Some 2) (Some 3) (Some 4) (Some (Some "cubic")));
        SetCc (ProbeCtx 7 200 0 "iperf3")
          (Sock 4096 (Some 1) (Some 2) (Some 3) (Some 4) (Some (Some "cubic")))
          (Some "bbr");
        InitCc (ProbeCtx 9 250 0 "curl")
          (Sock 8192 None None None None None);
        CleanupCc (ProbeCtx 7 300 0 "iperf3")
          (Sock 4096 (Some 1) (Some 2) (Some 3) (Some 4) (Some (Some "bbr"))) ]
    init = init.
Proof.
  apply (socket_tracking_assign_cleanup_round_trip
           (ProbeCtx 7 100 0 "iperf3") (ProbeCtx 7 300 0 "iperf3")
           (Sock 4096 (Some 1) (Some 2) (Some 3) (Some 4) (Some (Some "cubic")))
           (Sock 4096 (Some 1) (Some 2) (Some 3) (Some 4) (Some (Some "bbr")))
           [ SetCc (ProbeCtx 7 200 0 "iperf3")
               (Sock 4096 (Some 1) (Some 2) (Some 3) (Some 4) (Some (Some "cubic")))
               (Some "bbr");
             InitCc (ProbeCtx 9 250 0 "curl")
               (Sock 8192 None None None None None) ]
           init).
  - reflexivity.
  - vm_compute. reflexivity.
  - reflexivity.
  - repeat constructor.
Defined.

End CongestionControlMore.

(** ** tcp_v4_connect: which records carry a latency *)

Module ConnectLatency.
Import Connect ConnectExt.














End ConnectLatency.
